(** * Smart-Room controller (ATmega328P sketch): a shallow embedding

    The sketch [atmega328p/arduino-uno-main.ino] is a single cooperative loop
    over a set of global variables.  The globals become one record [State];
    every function of the sketch becomes a function on [State] that receives,
    as explicit arguments, whatever the corresponding C function reads from
    the hardware ([millis()], [digitalRead], the serial receive queue, the
    sensors and the real-time clock).

    Machine integers are integers of [Z] with the wrap-around written out:
    [unsigned long] is 32 bits wide on the AVR, [uint8_t]/[int8_t] are 8 bits.
    The two [float] readings only ever hold finite values (they are produced by
    [clampf]) and are only compared against exactly representable constants, so
    they are modelled by the rational number they denote. *)

From Stdlib Require Import ZArith QArith Bool List Ascii String Lia.
Import ListNotations.
Open Scope Z_scope.

(** ** Machine arithmetic *)

Definition ULONG_MOD : Z := 2 ^ 32.

(** Value of an [unsigned long] expression: arithmetic modulo 2^32. *)
Definition ulong (z : Z) : Z := z mod ULONG_MOD.

(** Conversion to [int8_t] (two's complement, as avr-gcc does it). *)
Definition int8_t (z : Z) : Z := (z + 128) mod 256 - 128.

(** Conversion to [uint8_t]. *)
Definition uint8_t (z : Z) : Z := z mod 256.

(** [now - then] computed in [unsigned long], the idiom of every timer. *)
Definition elapsed (since now_ms : Z) : Z := ulong (now_ms - since).

(** ** Constants of the sketch *)

Definition LOW : bool := false.
Definition HIGH : bool := true.

Definition BTN_MODE : Z := 2.
Definition BTN_NIGHT : Z := 3.
Definition BTN_TOGGLE : Z := 5.

Definition TEMP_WARN_LOW : Q := 16.
Definition TEMP_WARN_HIGH : Q := 26.
Definition TEMP_CRIT_LOW : Q := 12.
Definition TEMP_CRIT_HIGH : Q := 30.

Definition HUM_WARN_LOW : Q := 30.
Definition HUM_WARN_HIGH : Q := 65.
Definition HUM_CRIT_LOW : Q := 20.
Definition HUM_CRIT_HIGH : Q := 75.

Definition LDR_LIMIT : Z := 50.

Definition DEBOUNCE_MS : Z := 35.
Definition EDIT_BLINK_MS : Z := 400.

(** ** Types *)

Inductive Mode := AUTO | MANUAL.

Inductive NightEditState := NIGHT_EDIT_OFF | NIGHT_EDIT_START | NIGHT_EDIT_END.

Record Button := mkButton {
  pin : Z;
  stableState : bool;
  lastReading : bool;
  lastChangeMs : Z
}.

(** The part of RTClib's [DateTime] the sketch reads. *)
Record DateTime := mkDateTime {
  hour : Z;
  minute : Z;
  second : Z
}.

Definition Mode_eqb (a b : Mode) : bool :=
  match a, b with
  | AUTO, AUTO | MANUAL, MANUAL => true
  | _, _ => false
  end.

Definition NightEditState_eqb (a b : NightEditState) : bool :=
  match a, b with
  | NIGHT_EDIT_OFF, NIGHT_EDIT_OFF
  | NIGHT_EDIT_START, NIGHT_EDIT_START
  | NIGHT_EDIT_END, NIGHT_EDIT_END => true
  | _, _ => false
  end.

(** Strict comparison of two readings. *)
Definition Qltb (x y : Q) : bool := negb (Qle_bool y x).

(** ** Pure helpers of the sketch *)

(** [uint8_t wrapHour(int8_t h)]: the argument is converted to the parameter
    type on entry. *)
Definition wrapHour (arg : Z) : Z :=
  let h := int8_t arg in
  if h <? 0 then 23
  else if 23 <? h then 0
  else uint8_t h.

(** [isEvening()], as a function of the three values it reads:
    [now.hour()], [eveningStart] and [nightEnd]. *)
Definition isEvening (h eveningStart nightEnd : Z) : bool :=
  if eveningStart <? nightEnd
  then (eveningStart <=? h) && (h <? nightEnd)
  else (eveningStart <=? h) || (h <? nightEnd).

(** ** Debounced input *)

(** One sample taken by [checkPress]: what [digitalRead(b.pin)] and the
    following [millis()] returned. *)
Record Sample := mkSample {
  level : bool;
  at_ms : Z
}.

(** [checkPress(Button &b)]: the returned pair is the result and the button
    as the call leaves it. *)
Definition checkPress (b : Button) (reading : bool) (ms : Z) : bool * Button :=
  let b1 :=
    if negb (Bool.eqb reading (lastReading b))
    then mkButton (pin b) (stableState b) reading ms
    else b in
  if DEBOUNCE_MS <? elapsed (lastChangeMs b1) ms then
    if negb (Bool.eqb reading (stableState b1)) then
      let b2 := mkButton (pin b1) reading (lastReading b1) (lastChangeMs b1) in
      if Bool.eqb (stableState b2) LOW then (true, b2) else (false, b2)
    else (false, b1)
  else (false, b1).

(** Time of the last change of reading once [checkPress] has compared the
    new reading with the previous one (the first [if] of [checkPress]). *)
Definition changeTime (b : Button) (r : bool) (ms : Z) : Z :=
  if Bool.eqb r (lastReading b) then lastChangeMs b else ms.

Definition poll (b : Button) (s : Sample) : bool * Button :=
  checkPress b (level s) (at_ms s).

(** Polling a button over a whole trace of samples: the events reported, one
    per sample, and the final button. *)
Fixpoint poll_all (b : Button) (tr : list Sample) : list bool * Button :=
  match tr with
  | [] => ([], b)
  | s :: tr' =>
      let '(ev, b') := poll b s in
      let '(evs, b'') := poll_all b' tr' in
      (ev :: evs, b'')
  end.

(** The button after a trace. *)
Definition after (b : Button) (tr : list Sample) : Button := snd (poll_all b tr).

(** Stable level after each sample of a trace. *)
Fixpoint stable_levels (b : Button) (tr : list Sample) : list bool :=
  match tr with
  | [] => []
  | s :: tr' => let b' := snd (poll b s) in stableState b' :: stable_levels b' tr'
  end.

(** *** Trace-level vocabulary of the debounce contract *)

(** Start of the unbroken run of samples of level [lvl] that ends at the
    sample under consideration.  [rev_pre] lists the earlier samples, latest
    first; [t] is the time of the earliest sample of the run found so far.
    When the run reaches back to the start of the trace and the button already
    recorded that level, the run started at the recorded change time. *)
Fixpoint run_start (b0 : Button) (lvl : bool) (t : Z) (rev_pre : list Sample) : Z :=
  match rev_pre with
  | [] => if Bool.eqb lvl (lastReading b0) then lastChangeMs b0 else t
  | p :: rest =>
      if Bool.eqb (level p) lvl then run_start b0 lvl (at_ms p) rest else t
  end.

(** Since when the level of sample [s] has been held, given the samples [pre]
    taken before it. *)
Definition hold_start (b0 : Button) (pre : list Sample) (s : Sample) : Z :=
  run_start b0 (level s) (at_ms s) (rev pre).

(** The level of [s] has been held for longer than the debounce window. *)
Definition held_long (b0 : Button) (pre : list Sample) (s : Sample) : Prop :=
  DEBOUNCE_MS < elapsed (hold_start b0 pre s) (at_ms s).

(** Released-to-pressed edges of a sequence of stable levels that starts from
    level [prev]. *)
Fixpoint falling_edges (prev : bool) (ls : list bool) : list bool :=
  match ls with
  | [] => []
  | l :: ls' => (Bool.eqb prev HIGH && Bool.eqb l LOW) :: falling_edges l ls'
  end.

(** ** The globals of the sketch *)

Open Scope string_scope.
Open Scope list_scope.
Open Scope Z_scope.

Record State := mkState {
  (* configuration *)
  mode : Mode;
  nightEdit : NightEditState;
  intervalMs : Z;
  eveningStart : Z;
  nightEnd : Z;
  editStartH : Z;
  editEndH : Z;
  (* sensor data *)
  tempC : Q;
  humP : Q;
  ldr : Z;
  now : DateTime;
  (* output states and flags *)
  ledState : bool;
  baseLedOn : bool;
  manualLED : bool;
  buzzState : bool;
  warningState : bool;
  criticalState : bool;
  editBlinkOn : bool;
  (* timers *)
  lastReadSend : Z;
  lastReadMain : Z;
  lastEditBlink : Z;
  (* buttons *)
  bMode : Button;
  bNight : Button;
  bTog : Button;
  (* serial command under construction *)
  cmd : string;
  (* function-local statics: drawOLED, buzzerPassive, ledAlarmUpdate *)
  alarmBlink : bool;
  lastAlarmBlink : Z;
  buzzLastToggle : Z;
  beepOn : bool;
  ledLastToggle : Z;
  blinkOn : bool;
  (* what the two output pins are driven with: the level last written to
     PIN_LED, and the frequency generated on PIN_BUZZ (None: no tone) *)
  pinLED : bool;
  buzzTone : option Z
}.

(** The record rebuilt from its own fields; assignments to a global are
    obtained from it by replacing one field. *)
Definition rebuild (s : State) : State :=
  mkState (mode s) (nightEdit s) (intervalMs s) (eveningStart s) (nightEnd s)
          (editStartH s) (editEndH s) (tempC s) (humP s) (ldr s) (now s)
          (ledState s) (baseLedOn s) (manualLED s) (buzzState s)
          (warningState s) (criticalState s) (editBlinkOn s)
          (lastReadSend s) (lastReadMain s) (lastEditBlink s)
          (bMode s) (bNight s) (bTog s) (cmd s)
          (alarmBlink s) (lastAlarmBlink s) (buzzLastToggle s) (beepOn s)
          (ledLastToggle s) (blinkOn s) (pinLED s) (buzzTone s).

Ltac assign_field proj :=
  let v := fresh "v" in
  let s := fresh "s" in
  intros v s;
  let body := eval cbv beta delta [rebuild] in (rebuild s) in
  let abstracted := eval pattern (proj s) in body in
  lazymatch abstracted with
  | ?f _ => let r := eval cbv beta in (f v) in exact r
  end.

Definition set_mode : Mode -> State -> State := ltac:(assign_field mode).
Definition set_nightEdit : NightEditState -> State -> State := ltac:(assign_field nightEdit).
Definition set_intervalMs : Z -> State -> State := ltac:(assign_field intervalMs).
Definition set_eveningStart : Z -> State -> State := ltac:(assign_field eveningStart).
Definition set_nightEnd : Z -> State -> State := ltac:(assign_field nightEnd).
Definition set_editStartH : Z -> State -> State := ltac:(assign_field editStartH).
Definition set_editEndH : Z -> State -> State := ltac:(assign_field editEndH).
Definition set_tempC : Q -> State -> State := ltac:(assign_field tempC).
Definition set_humP : Q -> State -> State := ltac:(assign_field humP).
Definition set_ldr : Z -> State -> State := ltac:(assign_field ldr).
Definition set_now : DateTime -> State -> State := ltac:(assign_field now).
Definition set_ledState : bool -> State -> State := ltac:(assign_field ledState).
Definition set_baseLedOn : bool -> State -> State := ltac:(assign_field baseLedOn).
Definition set_manualLED : bool -> State -> State := ltac:(assign_field manualLED).
Definition set_buzzState : bool -> State -> State := ltac:(assign_field buzzState).
Definition set_warningState : bool -> State -> State := ltac:(assign_field warningState).
Definition set_criticalState : bool -> State -> State := ltac:(assign_field criticalState).
Definition set_editBlinkOn : bool -> State -> State := ltac:(assign_field editBlinkOn).
Definition set_lastReadSend : Z -> State -> State := ltac:(assign_field lastReadSend).
Definition set_lastReadMain : Z -> State -> State := ltac:(assign_field lastReadMain).
Definition set_lastEditBlink : Z -> State -> State := ltac:(assign_field lastEditBlink).
Definition set_bMode : Button -> State -> State := ltac:(assign_field bMode).
Definition set_bNight : Button -> State -> State := ltac:(assign_field bNight).
Definition set_bTog : Button -> State -> State := ltac:(assign_field bTog).
Definition set_cmd : string -> State -> State := ltac:(assign_field cmd).
Definition set_alarmBlink : bool -> State -> State := ltac:(assign_field alarmBlink).
Definition set_lastAlarmBlink : Z -> State -> State := ltac:(assign_field lastAlarmBlink).
Definition set_buzzLastToggle : Z -> State -> State := ltac:(assign_field buzzLastToggle).
Definition set_beepOn : bool -> State -> State := ltac:(assign_field beepOn).
Definition set_ledLastToggle : Z -> State -> State := ltac:(assign_field ledLastToggle).
Definition set_blinkOn : bool -> State -> State := ltac:(assign_field blinkOn).
Definition set_pinLED : bool -> State -> State := ltac:(assign_field pinLED).
Definition set_buzzTone : option Z -> State -> State := ltac:(assign_field buzzTone).

(** Assignments in program order: [st |> set_a x |> set_b y]. *)
Notation "s |> f" := (f s) (at level 45, left associativity, only parsing).

(** The globals as initialised by the sketch; the pins as [ioInitRegisters]
    leaves them.  [DateTime now] is default-constructed (midnight). *)
Definition boot : State :=
  mkState AUTO NIGHT_EDIT_OFF 1000 20 6 20 6
          0%Q 0%Q 0 (mkDateTime 0 0 0)
          false false false false false false true
          0 0 0
          (mkButton BTN_MODE LOW LOW 0)
          (mkButton BTN_NIGHT LOW LOW 0)
          (mkButton BTN_TOGGLE LOW LOW 0)
          ""
          false 0 0 false 0 false
          LOW None.

(** ** Serial commands *)

Definition NL : ascii := "010"%char.
Definition CR : ascii := "013"%char.

(** [isspace] of avr-libc: blank, and the control characters 9 to 13. *)
Definition isspace (c : ascii) : bool :=
  let n := N_of_ascii c in
  (((9 <=? n) && (n <=? 13)) || (n =? 32))%N.

(** [String::trim()] of the Arduino core: drops the white space at both
    ends. *)
Fixpoint ltrim (s : string) : string :=
  match s with
  | EmptyString => EmptyString
  | String c s' => if isspace c then ltrim s' else s
  end.

Fixpoint rtrim (s : string) : string :=
  match s with
  | EmptyString => EmptyString
  | String c s' =>
      let t := rtrim s' in
      if isspace c && String.eqb t EmptyString then EmptyString else String c t
  end.

Definition trim (s : string) : string := rtrim (ltrim s).

(** The branch of [readCmd] taken on a newline: trim the buffer, act on the
    token, empty the buffer. *)
Definition execLine (st : State) : State :=
  let st := set_cmd (trim (cmd st)) st in
  let st :=
    if String.eqb (cmd st) "MA" then set_mode AUTO st
    else if String.eqb (cmd st) "ML" then
      st |> set_mode MANUAL |> set_manualLED false
    else if String.eqb (cmd st) "LO" then set_manualLED true st
    else if String.eqb (cmd st) "LOF" then set_manualLED false st
    else if String.eqb (cmd st) "SNI" then
      set_eveningStart (wrapHour (int8_t (eveningStart st) + 1)) st
    else if String.eqb (cmd st) "SND" then
      set_eveningStart (wrapHour (int8_t (eveningStart st) - 1)) st
    else if String.eqb (cmd st) "SI" then
      set_nightEnd (wrapHour (int8_t (nightEnd st) + 1)) st
    else if String.eqb (cmd st) "SD" then
      set_nightEnd (wrapHour (int8_t (nightEnd st) - 1)) st
    else if String.eqb (cmd st) "I" then set_intervalMs 1000 st
    else if String.eqb (cmd st) "I2" then set_intervalMs 2500 st
    else if String.eqb (cmd st) "I5" then set_intervalMs 5000 st
    else if String.eqb (cmd st) "I1" then set_intervalMs 10000 st
    else st in
  set_cmd "" st.

(** One turn of the [while (Serial.available())] loop, for the byte read. *)
Definition readChar (c : ascii) (st : State) : State :=
  if Ascii.eqb c NL then execLine st
  else if negb (Ascii.eqb c CR) then
    let st := set_cmd (cmd st ++ String c EmptyString)%string st in
    if 20 <? Z.of_nat (String.length (cmd st)) then set_cmd "" st else st
  else st.

(** [readCmd()], given the bytes it finds in the receive queue. *)
Fixpoint readCmd (rx : list ascii) (st : State) : State :=
  match rx with
  | [] => st
  | c :: rx' => readCmd rx' (readChar c st)
  end.

(** ** Buttons and the night editor *)

(** What one call of [handleButtons] reads: one sample per button, and the
    [millis()] stored in [lastEditBlink] by each of the three edit actions. *)
Record ButtonInputs := mkButtonInputs {
  inNight : Sample;
  inMode : Sample;
  inTog : Sample;
  msNightBlink : Z;
  msModeBlink : Z;
  msTogBlink : Z
}.

(** Body of [if (checkPress(bNight))]. *)
Definition pressNight (ms : Z) (st : State) : State :=
  match nightEdit st with
  | NIGHT_EDIT_OFF =>
      st |> set_nightEdit NIGHT_EDIT_START
         |> set_editStartH (eveningStart st)
         |> set_editEndH (nightEnd st)
         |> set_editBlinkOn true
         |> set_lastEditBlink ms
  | NIGHT_EDIT_START =>
      st |> set_nightEdit NIGHT_EDIT_END
         |> set_editBlinkOn true
         |> set_lastEditBlink ms
  | NIGHT_EDIT_END =>
      st |> set_eveningStart (editStartH st)
         |> set_nightEnd (editEndH st)
         |> set_nightEdit NIGHT_EDIT_OFF
         |> set_editBlinkOn true
  end.

(** Body of [if (checkPress(bMode))] while editing: one hour less. *)
Definition editMinus (ms : Z) (st : State) : State :=
  let st :=
    if NightEditState_eqb (nightEdit st) NIGHT_EDIT_START
    then set_editStartH (wrapHour (int8_t (editStartH st) - 1)) st
    else set_editEndH (wrapHour (int8_t (editEndH st) - 1)) st in
  st |> set_editBlinkOn true |> set_lastEditBlink ms.

(** Body of [if (checkPress(bTog))] while editing: one hour more. *)
Definition editPlus (ms : Z) (st : State) : State :=
  let st :=
    if NightEditState_eqb (nightEdit st) NIGHT_EDIT_START
    then set_editStartH (wrapHour (int8_t (editStartH st) + 1)) st
    else set_editEndH (wrapHour (int8_t (editEndH st) + 1)) st in
  st |> set_editBlinkOn true |> set_lastEditBlink ms.

(** Body of [if (checkPress(bMode))] outside the editor. *)
Definition pressMode (st : State) : State :=
  let st := set_mode (if Mode_eqb (mode st) AUTO then MANUAL else AUTO) st in
  if Mode_eqb (mode st) MANUAL then set_manualLED false st else st.

(** Body of [if (checkPress(bTog))] outside the editor. *)
Definition pressTog (st : State) : State :=
  if Mode_eqb (mode st) MANUAL then set_manualLED (negb (manualLED st)) st else st.

(** The first block of [handleButtons]: the night button. *)
Definition nightBlock (inp : ButtonInputs) (st : State) : State :=
  let r := poll (bNight st) (inNight inp) in
  let st := set_bNight (snd r) st in
  if fst r then pressNight (msNightBlink inp) st else st.

(** The block run while the editor is active. *)
Definition editBlock (inp : ButtonInputs) (st : State) : State :=
  let r := poll (bMode st) (inMode inp) in
  let st := set_bMode (snd r) st in
  let st := if fst r then editMinus (msModeBlink inp) st else st in
  let r := poll (bTog st) (inTog inp) in
  let st := set_bTog (snd r) st in
  if fst r then editPlus (msTogBlink inp) st else st.

(** The blocks reached when the editor is off. *)
Definition normalBlock (inp : ButtonInputs) (st : State) : State :=
  let r := poll (bMode st) (inMode inp) in
  let st := set_bMode (snd r) st in
  let st := if fst r then pressMode st else st in
  let r := poll (bTog st) (inTog inp) in
  let st := set_bTog (snd r) st in
  if fst r then pressTog st else st.

(** [handleButtons()]. *)
Definition handleButtons (inp : ButtonInputs) (st : State) : State :=
  let st := nightBlock inp st in
  if negb (NightEditState_eqb (nightEdit st) NIGHT_EDIT_OFF)
  then editBlock inp st
  else normalBlock inp st.

(** ** Alarm evaluation and base output *)

(** [updateLogic()]. *)
Definition updateLogic (st : State) : State :=
  let dark := ldr st <? LDR_LIMIT in
  let evening := isEvening (hour (now st)) (eveningStart st) (nightEnd st) in
  let warningTemp := Qltb (tempC st) TEMP_WARN_LOW || Qltb TEMP_WARN_HIGH (tempC st) in
  let criticalTemp := Qltb (tempC st) TEMP_CRIT_LOW || Qltb TEMP_CRIT_HIGH (tempC st) in
  let warningHum := Qltb (humP st) HUM_WARN_LOW || Qltb HUM_WARN_HIGH (humP st) in
  let criticalHum := Qltb (humP st) HUM_CRIT_LOW || Qltb HUM_CRIT_HIGH (humP st) in
  let warning := warningTemp || warningHum in
  let critical := criticalTemp || criticalHum in
  let st := st |> set_warningState warning
               |> set_criticalState critical
               |> set_buzzState (warning || critical) in
  let st :=
    if Mode_eqb (mode st) AUTO
    then set_baseLedOn (dark || evening) st
    else set_baseLedOn (manualLED st) st in
  set_ledState (baseLedOn st || warning || critical) st.

(** ** Alarm signalling *)

(** [buzzerPassive(warning, critical)], given what [millis()] returned.
    [tone] starts a tone that lasts until the next [tone]/[noTone]. *)
Definition buzzerPassive (warning critical : bool) (nowMs : Z) (st : State) : State :=
  if critical then set_buzzTone (Some 2000) st
  else if warning then
    if 200 <=? elapsed (buzzLastToggle st) nowMs then
      let st := st |> set_buzzLastToggle nowMs |> set_beepOn (negb (beepOn st)) in
      if beepOn st then set_buzzTone (Some 1200) st else set_buzzTone None st
    else st
  else set_buzzTone None st.

(** [ledAlarmUpdate(warning, critical, baseOn)], given what [millis()]
    returned. *)
Definition ledAlarmUpdate (warning critical baseOn : bool) (ms : Z) (st : State) : State :=
  if critical then set_pinLED HIGH st
  else if warning then
    let st :=
      if 200 <=? elapsed (ledLastToggle st) ms
      then st |> set_ledLastToggle ms |> set_blinkOn (negb (blinkOn st))
      else st in
    set_pinLED (if blinkOn st then HIGH else LOW) st
  else set_pinLED (if baseOn then HIGH else LOW) st.

(** ** Display *)

(** [drawOLED()]: its effect on the globals and on its own statics; the
    drawing itself is left out. *)
Definition drawOLED (ms : Z) (st : State) : State :=
  let alarmBlinkInterval := if criticalState st then 250 else 500 in
  let st :=
    if (warningState st || criticalState st)
       && (alarmBlinkInterval <=? elapsed (lastAlarmBlink st) ms)
    then st |> set_lastAlarmBlink ms |> set_alarmBlink (negb (alarmBlink st))
    else st in
  if negb (NightEditState_eqb (nightEdit st) NIGHT_EDIT_OFF) then
    if EDIT_BLINK_MS <=? elapsed (lastEditBlink st) ms
    then st |> set_lastEditBlink ms |> set_editBlinkOn (negb (editBlinkOn st))
    else st
  else set_editBlinkOn true st.

(** ** The main loop *)

(** Everything one pass of [loop()] reads from outside, in call order. *)
Record LoopInputs := mkLoopInputs {
  rx : list ascii;
  buttons : ButtonInputs;
  msLed : Z;
  msBuzz : Z;
  msSendCheck : Z;
  msSendStamp : Z;
  msMainCheck : Z;
  msMainStamp : Z;
  inLdr : Z;
  inTemp : Q;
  inHum : Q;
  inNow : DateTime;
  msDraw : Z
}.

(** The 250 ms task of [loop()]. *)
Definition senseTask (inp : LoopInputs) (st : State) : State :=
  st |> set_lastReadMain (msMainStamp inp)
     |> set_ldr (inLdr inp)
     |> set_tempC (inTemp inp)
     |> set_humP (inHum inp)
     |> set_now (inNow inp)
     |> updateLogic
     |> drawOLED (msDraw inp).

(** [loop()]; [sendUART] only prints, so the report task leaves nothing but
    its time stamp. *)
Definition loop (inp : LoopInputs) (st : State) : State :=
  let st := readCmd (rx inp) st in
  let st := handleButtons (buttons inp) st in
  let st := ledAlarmUpdate (warningState st) (criticalState st) (baseLedOn st) (msLed inp) st in
  let st := buzzerPassive (warningState st) (criticalState st) (msBuzz inp) st in
  let st :=
    if intervalMs st <=? elapsed (lastReadSend st) (msSendCheck inp)
    then set_lastReadSend (msSendStamp inp) st
    else st in
  if 250 <=? elapsed (lastReadMain st) (msMainCheck inp)
  then senseTask inp st
  else st.

(** Successive passes of the loop. *)
Fixpoint run (inps : list LoopInputs) (st : State) : State :=
  match inps with
  | [] => st
  | i :: rest => run rest (loop i st)
  end.

(** ** Vocabulary of the specification *)

(** The editor's cycle. *)
Definition advance (e : NightEditState) : NightEditState :=
  match e with
  | NIGHT_EDIT_OFF => NIGHT_EDIT_START
  | NIGHT_EDIT_START => NIGHT_EDIT_END
  | NIGHT_EDIT_END => NIGHT_EDIT_OFF
  end.

(** Whether [handleButtons] registers a press of each button on the given
    inputs.  No block of [handleButtons] touches a button before polling it,
    so the three events are read off the entry state. *)
Definition nightPressed (inp : ButtonInputs) (st : State) : bool :=
  fst (poll (bNight st) (inNight inp)).

Definition modePressed (inp : ButtonInputs) (st : State) : bool :=
  fst (poll (bMode st) (inMode inp)).

Definition togPressed (inp : ButtonInputs) (st : State) : bool :=
  fst (poll (bTog st) (inTog inp)).

(** Number of night-button presses registered along a run of the loop. *)
Fixpoint nightPresses (inps : list LoopInputs) (st : State) : nat :=
  match inps with
  | [] => O
  | i :: rest =>
      ((if nightPressed (buttons i) st then 1 else 0)
       + nightPresses rest (loop i st))%nat
  end.

(** The hour the editor is working on, and the other one. *)
Definition edited (st : State) : Z :=
  if NightEditState_eqb (nightEdit st) NIGHT_EDIT_START
  then editStartH st else editEndH st.

Definition unedited (st : State) : Z :=
  if NightEditState_eqb (nightEdit st) NIGHT_EDIT_START
  then editEndH st else editStartH st.

(** All four hours of the state are hours of the day. *)
Definition hours_ok (st : State) : Prop :=
  0 <= eveningStart st <= 23 /\ 0 <= nightEnd st <= 23 /\
  0 <= editStartH st <= 23 /\ 0 <= editEndH st <= 23.

(** Combined alarm severity carried by the two flags, in the priority order
    in which [ledAlarmUpdate] and [buzzerPassive] test them. *)
Inductive AlarmLevel := Normal | Warning | Critical.

Definition alarmLevel (warning critical : bool) : AlarmLevel :=
  if critical then Critical else if warning then Warning else Normal.

Definition levelOf (st : State) : AlarmLevel :=
  alarmLevel (warningState st) (criticalState st).

(** The state after an evaluation cycle that found readings [t] and [h]. *)
Definition evaluate (t h : Q) (st : State) : State :=
  st |> set_tempC t |> set_humP h |> updateLogic.

(** A reading lies outside the band [lo, hi]. *)
Definition outside (lo hi x : Q) : Prop := (x < lo \/ hi < x)%Q.

(** Ambient darkness as [updateLogic] derives it. *)
Definition ambient_dark (st : State) : bool := ldr st <? LDR_LIMIT.

(** The night-window test at the current hour. *)
Definition is_night_window (st : State) : bool :=
  isEvening (hour (now st)) (eveningStart st) (nightEnd st).

(** The tokens [readCmd] acts on. *)
Definition recognized : list string :=
  ["MA"; "ML"; "LO"; "LOF"; "SNI"; "SND"; "SI"; "SD"; "I"; "I2"; "I5"; "I1"].

(** The settings a command can change. *)
Definition settings (st : State) : Mode * bool * Z * Z * Z :=
  (mode st, manualLED st, eveningStart st, nightEnd st, intervalMs st).

(** The bytes of a line, and a line as sent: its bytes and a newline. *)
Definition bytes (s : string) : list ascii := list_ascii_of_string s.

Definition line (s : string) : list ascii := bytes s ++ [NL].

(** What the command buffer holds of a line once its carriage returns are
    dropped. *)
Definition payload (l : list ascii) : string :=
  string_of_list_ascii (filter (fun c => negb (Ascii.eqb c CR)) l).

(** Views of the state: the editor, the committed night window, the three
    buttons, and everything the signalling functions read or keep. *)
Definition editor (st : State) : NightEditState * Z * Z :=
  (nightEdit st, editStartH st, editEndH st).

Definition window (st : State) : Z * Z := (eveningStart st, nightEnd st).

Definition pads (st : State) : Button * Button * Button :=
  (bMode st, bNight st, bTog st).

Definition signalling (st : State) :=
  (warningState st, criticalState st, baseLedOn st,
   (ledLastToggle st, blinkOn st, pinLED st),
   (buzzLastToggle st, beepOn st, buzzTone st)).

(** The clock readings of one pass of the loop, taken in call order between
    the times [T] and [T'], before the counter wraps. *)
Definition timed (T : Z) (inp : LoopInputs) (T' : Z) : Prop :=
  0 <= T /\ T <= msLed inp /\ msLed inp <= msBuzz inp
  /\ msBuzz inp <= msSendCheck inp /\ msSendCheck inp <= msSendStamp inp
  /\ msSendStamp inp <= msMainCheck inp /\ msMainCheck inp <= msMainStamp inp
  /\ msMainStamp inp <= msDraw inp /\ msDraw inp <= T' /\ T' < ULONG_MOD.

(** The time stamps kept by the state lie in the past, and outside Warning
    the last flip of either signal is no later than the last evaluation. *)
Definition clocked (T : Z) (st : State) : Prop :=
  0 <= buzzLastToggle st <= T /\ 0 <= ledLastToggle st <= T
  /\ 0 <= lastReadMain st <= T
  /\ (levelOf st <> Warning ->
      buzzLastToggle st <= lastReadMain st /\ ledLastToggle st <= lastReadMain st).

(** Whether a pass of the loop runs the 250 ms task. *)
Definition senseDue (inp : LoopInputs) (st : State) : bool :=
  250 <=? elapsed (lastReadMain st) (msMainCheck inp).

(** * Further parts of the sketch *)

(** ** Port initialisation *)

(** The bit numbers [ioInitRegisters] takes from the toolchain's
    [avr/io.h]; the sketch does not define them. *)
Record IoBits := mkIoBits {
  DDD2 : Z; DDD3 : Z; DDD4 : Z; DDD5 : Z; DDB1 : Z;
  PORTD2 : Z; PORTD3 : Z; PORTD4 : Z; PORTD5 : Z; PORTB1 : Z
}.

(** Their values for the ATmega328P. *)
Definition atmega328p : IoBits := mkIoBits 2 3 4 5 1 2 3 4 5 1.

(** The four 8-bit registers the function writes. *)
Record Ports := mkPorts {
  DDRD : Z;
  DDRB : Z;
  PORTD : Z;
  PORTB : Z
}.

(** [1 << k]. *)
Definition bit (k : Z) : Z := Z.shiftl 1 k.

(** [ioInitRegisters()]: every compound assignment computes in [int] and
    stores the low byte. *)
Definition ioInitRegisters (k : IoBits) (p : Ports) : Ports :=
  let ddrd := uint8_t (Z.lor (DDRD p) (bit (DDD4 k))) in
  let ddrb := uint8_t (Z.lor (DDRB p) (bit (DDB1 k))) in
  let ddrd :=
    uint8_t (Z.land ddrd
               (Z.lnot (Z.lor (Z.lor (bit (DDD2 k)) (bit (DDD3 k))) (bit (DDD5 k))))) in
  let portd :=
    uint8_t (Z.lor (PORTD p)
               (Z.lor (Z.lor (bit (PORTD2 k)) (bit (PORTD3 k))) (bit (PORTD5 k)))) in
  let portd := uint8_t (Z.land portd (Z.lnot (bit (PORTD4 k)))) in
  let portb := uint8_t (Z.land (PORTB p) (Z.lnot (bit (PORTB1 k)))) in
  mkPorts ddrd ddrb portd portb.

(** All bit numbers name a bit of a byte. *)
Definition bits_ok (k : IoBits) : Prop :=
  Forall (fun b => 0 <= b < 8)
    [DDD2 k; DDD3 k; DDD4 k; DDD5 k; DDB1 k;
     PORTD2 k; PORTD3 k; PORTD4 k; PORTD5 k; PORTB1 k].

(** ** Sensor scaling *)

(** [clampf(v, lo, hi)]. *)
Definition clampf (v lo hi : Q) : Q :=
  if Qltb v lo then lo else if Qltb hi v then hi else v.

(** [adcToTemp] and [adcToHum], given the function [mapFloat] computes in
    floating point; the constants are the calibration points of the sketch. *)
Definition adcToTemp (mapFloat : Q -> Q -> Q -> Q -> Q -> Q) (adc : Z) : Q :=
  clampf (mapFloat (inject_Z adc) 125 897 (-40) 125)%Q (-40)%Q 125%Q.

Definition adcToHum (mapFloat : Q -> Q -> Q -> Q -> Q -> Q) (adc : Z) : Q :=
  clampf (mapFloat (inject_Z adc) 102 916 0 100)%Q 0%Q 100%Q.

(** ** The night window over a day *)

Definition day : list Z := map Z.of_nat (seq 0 24).

(** Hours of the day inside the window. *)
Definition nightHours (start stop : Z) : list Z :=
  filter (fun h => isEvening h start stop) day.

(** ** Lines as they arrive *)

(** White space that does not end the line. *)
Definition blank (s : string) : bool :=
  forallb (fun c => isspace c && negb (Ascii.eqb c NL)) (bytes s).

(** The report intervals a command can select. *)
Definition interval_ok (st : State) : Prop :=
  In (intervalMs st) [1000; 2500; 5000; 10000].

(** ** Buttons along a run of the loop *)

(** The samples each button is polled with along a run. *)
Definition nightSamples (inps : list LoopInputs) : list Sample :=
  map (fun i => inNight (buttons i)) inps.

Definition modeSamples (inps : list LoopInputs) : list Sample :=
  map (fun i => inMode (buttons i)) inps.

Definition togSamples (inps : list LoopInputs) : list Sample :=
  map (fun i => inTog (buttons i)) inps.

(** Number of presses among the events of a trace. *)
Definition presses (evs : list bool) : nat :=
  List.length (filter (fun e => e) evs).

(** Samples taken at non-decreasing times from [t] on, before the
    millisecond counter wraps. *)
Fixpoint in_order (t : Z) (tr : list Sample) : Prop :=
  match tr with
  | [] => True
  | s :: rest => t <= at_ms s < ULONG_MOD /\ in_order (at_ms s) rest
  end.

(** Every press reported on [tr] comes later than [t]. *)
Definition presses_after (t : Z) (b : Button) (tr : list Sample) : Prop :=
  Forall (fun es => fst es = true -> t < at_ms (snd es))
         (combine (fst (poll_all b tr)) tr).

(** Where a button stands, at time [T], relative to a press reported at
    [t1]: still pressed; released again, which takes more than 35 ms; or
    more than 70 ms later. *)
Definition since_press (t1 : Z) (b : Button) (T : Z) : Prop :=
  (stableState b = LOW /\ (lastReading b = HIGH -> t1 <= lastChangeMs b))
  \/ (stableState b = HIGH /\ t1 + 35 < T
      /\ (lastReading b = LOW -> t1 + 35 < lastChangeMs b))
  \/ t1 + 70 < T.

(** ** The two timed tasks of the loop *)

(** The state of a pass when it comes to the report test: after [readCmd],
    [handleButtons], [ledAlarmUpdate] and [buzzerPassive]. *)
Definition beforeReport (inp : LoopInputs) (st : State) : State :=
  let st := readCmd (rx inp) st in
  let st := handleButtons (buttons inp) st in
  let st := ledAlarmUpdate (warningState st) (criticalState st) (baseLedOn st) (msLed inp) st in
  buzzerPassive (warningState st) (criticalState st) (msBuzz inp) st.

(** The rest of [loop()]: the report and the 250 ms task. *)
Definition timedTasks (inp : LoopInputs) (st : State) : State :=
  let st :=
    if intervalMs st <=? elapsed (lastReadSend st) (msSendCheck inp)
    then set_lastReadSend (msSendStamp inp) st
    else st in
  if 250 <=? elapsed (lastReadMain st) (msMainCheck inp)
  then senseTask inp st
  else st.

(** Whether a pass sends a report. *)
Definition reportDue (inp : LoopInputs) (st : State) : bool :=
  let st := beforeReport inp st in
  intervalMs st <=? elapsed (lastReadSend st) (msSendCheck inp).

(** Reports sent and evaluations made along a run. *)
Fixpoint reportCount (inps : list LoopInputs) (st : State) : nat :=
  match inps with
  | [] => O
  | i :: rest =>
      ((if reportDue i st then 1 else 0) + reportCount rest (loop i st))%nat
  end.

Fixpoint senseCount (inps : list LoopInputs) (st : State) : nat :=
  match inps with
  | [] => O
  | i :: rest =>
      ((if senseDue i st then 1 else 0) + senseCount rest (loop i st))%nat
  end.

(** Passes whose clock readings follow one another from time [T] on. *)
Fixpoint chained (T : Z) (inps : list LoopInputs) : Prop :=
  match inps with
  | [] => True
  | i :: rest => timed T i (msDraw i) /\ chained (msDraw i) rest
  end.

(** The last clock reading of a run that starts at [T]. *)
Fixpoint endTime (T : Z) (inps : list LoopInputs) : Z :=
  match inps with
  | [] => T
  | i :: rest => endTime (msDraw i) rest
  end.

(** ** What the status line reports *)

(** The flags [updateLogic] computes. *)
Definition flags (st : State) : bool * bool * bool * bool * bool :=
  (ledState st, buzzState st, baseLedOn st, warningState st, criticalState st).

(** The two flags printed by [sendUART] agree with the alarm flags. *)
Definition coherent (st : State) : Prop :=
  ledState st = baseLedOn st || warningState st || criticalState st
  /\ buzzState st = warningState st || criticalState st.

(** ** The blinking hour *)

(** Outside the editor the hours are shown steadily. *)
Definition steady (st : State) : Prop :=
  nightEdit st = NIGHT_EDIT_OFF -> editBlinkOn st = true.

(** ** Text produced for the display and the status line *)

Definition digit (d : Z) : ascii := ascii_of_nat (48 + Z.to_nat d).

(** Decimal text of a byte, as [display.print(uint8_t)] and [%d] give it. *)
Definition dec (n : Z) : string :=
  if (n <? 10)%Z then String (digit n) ""
  else if (n <? 100)%Z
       then String (digit (n / 10)%Z) (String (digit (n mod 10)%Z) "")
       else String (digit (n / 100)%Z)
              (String (digit (n / 10 mod 10)%Z) (String (digit (n mod 10)%Z) "")).

(** [%02d] of a byte; also [if (x < 10) print("0"); print(x)]. *)
Definition pad2 (n : Z) : string :=
  ((if (n <? 10)%Z then "0" else "") ++ dec n)%string.

(** The text [snprintf] leaves in [char timeBuf[9]]: at most 8 characters of
    ["%02d:%02d:%02d"]. *)
Definition timeBuf (t : DateTime) : string :=
  substring 0 8 (pad2 (hour t) ++ ":" ++ pad2 (minute t) ++ ":" ++ pad2 (second t))%string.

(** The line [drawOLED] prints at row 48. *)
Definition nightLine (st : State) : string :=
  let shownStart :=
    if NightEditState_eqb (nightEdit st) NIGHT_EDIT_OFF
    then eveningStart st else editStartH st in
  let shownEnd :=
    if NightEditState_eqb (nightEdit st) NIGHT_EDIT_OFF
    then nightEnd st else editEndH st in
  ("Night: "
   ++ (if NightEditState_eqb (nightEdit st) NIGHT_EDIT_START && negb (editBlinkOn st)
       then "  " else pad2 shownStart)
   ++ " - "
   ++ (if NightEditState_eqb (nightEdit st) NIGHT_EDIT_END && negb (editBlinkOn st)
       then "  " else pad2 shownEnd))%string.

(** A time of day as the clock chip gives it. *)
Definition clock_ok (t : DateTime) : Prop :=
  0 <= hour t <= 23 /\ 0 <= minute t <= 59 /\ 0 <= second t <= 59.

(** ** An edit session without changes *)

(** A run in which no serial byte arrives and neither the mode nor the
    toggle button registers a press. *)
Fixpoint hands_off (inps : list LoopInputs) (st : State) : Prop :=
  match inps with
  | [] => True
  | i :: rest =>
      rx i = [] /\ modePressed (buttons i) st = false
      /\ togPressed (buttons i) st = false /\ hands_off rest (loop i st)
  end.

(** The committed window is [w], and so is the draft while the editor is
    active. *)
Definition in_session (w : Z * Z) (st : State) : Prop :=
  window st = w
  /\ (nightEdit st <> NIGHT_EDIT_OFF -> (editStartH st, editEndH st) = w).

(** * Properties *)

(** ** Machine arithmetic *)

(** The timer idiom measures real elapsed time as long as less than 2^32 ms
    (about 49.7 days) have passed, whatever the counter wrapped meanwhile. *)
Lemma elapsed_exact (t0 t : Z) :
  0 <= t - t0 < ULONG_MOD ->
  elapsed (ulong t0) (ulong t) = t - t0.
Proof.
  intros H. unfold elapsed, ulong.
  rewrite <- Zminus_mod. apply Z.mod_small. exact H.
Qed.

(** ** Debounced input *)

Lemma checkPress_lastReading b r ms :
  lastReading (snd (checkPress b r ms)) = r.
Proof.
  unfold checkPress.
  destruct b as [p st lr lc]; destruct r, lr, st; cbn;
    repeat match goal with |- context [if ?c then _ else _] => destruct c end;
    reflexivity.
Qed.

Lemma checkPress_lastChangeMs b r ms :
  lastChangeMs (snd (checkPress b r ms)) = changeTime b r ms.
Proof.
  unfold checkPress, changeTime.
  destruct b as [p st lr lc]; destruct r, lr, st; cbn;
    repeat match goal with |- context [if ?c then _ else _] => destruct c end;
    reflexivity.
Qed.

Lemma checkPress_stableState b r ms :
  stableState (snd (checkPress b r ms)) =
  if DEBOUNCE_MS <? elapsed (changeTime b r ms) ms then r else stableState b.
Proof.
  unfold checkPress, changeTime.
  destruct b as [p st lr lc]; destruct r, lr, st; cbn;
    repeat match goal with |- context [if ?c then _ else _] => destruct c end;
    reflexivity.
Qed.

Lemma checkPress_event b r ms :
  fst (checkPress b r ms) =
  (DEBOUNCE_MS <? elapsed (changeTime b r ms) ms)
    && Bool.eqb (stableState b) HIGH && Bool.eqb r LOW.
Proof.
  unfold checkPress, changeTime.
  destruct b as [p st lr lc]; destruct r, lr, st; cbn;
    repeat match goal with |- context [if ?c then _ else _] => destruct c end;
    reflexivity.
Qed.

Lemma poll_all_app b tr1 tr2 :
  poll_all b (tr1 ++ tr2) =
  (fst (poll_all b tr1) ++ fst (poll_all (after b tr1) tr2),
   after (after b tr1) tr2).
Proof.
  revert b. induction tr1 as [|s tr1 IH]; intros b; cbn.
  - unfold after. now destruct (poll_all b tr2).
  - unfold after in *. cbn. destruct (poll b s) as [ev b1].
    rewrite IH. destruct (poll_all b1 tr1) as [evs b2]. reflexivity.
Qed.

Lemma after_snoc b pre p : after b (pre ++ [p]) = snd (poll (after b pre) p).
Proof.
  unfold after at 1. rewrite poll_all_app. cbn.
  unfold after at 1. cbn. destruct (poll (after b pre) p). reflexivity.
Qed.

(** The change time kept by the code is the start of the current run of
    equal samples. *)
Lemma changeTime_hold_start b0 pre :
  forall s, changeTime (after b0 pre) (level s) (at_ms s) = hold_start b0 pre s.
Proof.
  induction pre as [|p pre IH] using rev_ind; intros s.
  - reflexivity.
  - unfold hold_start. rewrite rev_unit. cbn [run_start].
    unfold changeTime. rewrite after_snoc. unfold poll.
    rewrite checkPress_lastReading, checkPress_lastChangeMs.
    fold (changeTime (after b0 pre) (level p) (at_ms p)). rewrite IH.
    unfold hold_start.
    destruct (level s) eqn:Es, (level p) eqn:Ep; cbn; reflexivity.
Qed.

Lemma events_are_falling_edges tr :
  forall b, fst (poll_all b tr) = falling_edges (stableState b) (stable_levels b tr).
Proof.
  induction tr as [|s tr IH]; intros b; [reflexivity|].
  cbn. specialize (IH (snd (poll b s))).
  assert (E : fst (poll b s) =
              Bool.eqb (stableState b) HIGH && Bool.eqb (stableState (snd (poll b s))) LOW).
  { unfold poll. rewrite checkPress_event, checkPress_stableState.
    destruct (DEBOUNCE_MS <? _), (stableState b), (level s); reflexivity. }
  destruct (poll b s) as [ev b1]. cbn in *.
  destruct (poll_all b1 tr) as [evs b2]. cbn in *. now rewrite IH, E.
Qed.

(** C1. Debounce contract of [checkPress].  Let a button in any state [b0]
    be polled over any sequence of samples [pre], then at sample [s].
    The poll at [s] reports a press iff the raw level has been held for
    longer than [DEBOUNCE_MS] = 35 ms (measured from the first sample of the
    current unbroken run of that level) and this promotes the stable level
    from released (HIGH) to pressed (LOW).  The stable level changes only on
    such a hold, and then to the held level; a promotion to released reports
    nothing; over the whole trace the events are exactly the
    released-to-pressed edges of the stable level, one event per edge. *)
Theorem checkPress_debounce (b0 : Button) (pre : list Sample) (s : Sample) :
  let b := after b0 pre in
  let ev := fst (poll b s) in
  let b' := snd (poll b s) in
  (ev = true <->
     held_long b0 pre s /\ stableState b = HIGH /\ level s = LOW)
  /\ (stableState b' <> stableState b <->
        held_long b0 pre s /\ level s <> stableState b)
  /\ (stableState b' <> stableState b -> stableState b' = level s)
  /\ (ev = true <-> stableState b = HIGH /\ stableState b' = LOW)
  /\ (stableState b' = HIGH -> ev = false)
  /\ fst (poll_all b0 (pre ++ [s])) =
       falling_edges (stableState b0) (stable_levels b0 (pre ++ [s])).
Proof.
  intros b ev b'. subst ev b'. unfold poll.
  rewrite checkPress_event, checkPress_stableState.
  unfold held_long. rewrite <- (changeTime_hold_start b0 pre s). fold b.
  destruct (Z.ltb_spec DEBOUNCE_MS
              (elapsed (changeTime b (level s) (at_ms s)) (at_ms s))) as [Hl|Hl];
    destruct (stableState b) eqn:Es, (level s) eqn:El; cbn;
    unfold HIGH, LOW;
    repeat split; intros; try tauto; try congruence; try lia;
    try (exfalso; intuition (congruence || lia));
    try apply events_are_falling_edges.
Qed.

(** ** Night window *)

(** C5. [isEvening] for every hour of the day and every window: a window with
    [start < end] is the same-day range [start <= h < end]; otherwise it
    crosses midnight, [h >= start] or [h < end].  With 20..6, hour 23 is in
    and hour 10 is out; with 8..18, hour 12 is in and hour 20 is out. *)
Theorem isEvening_window (h start stop : Z) :
  0 <= h <= 23 ->
  (start < stop -> (isEvening h start stop = true <-> start <= h < stop))
  /\ (start >= stop ->
      (isEvening h start stop = true <-> h >= start \/ h < stop))
  /\ isEvening 23 20 6 = true /\ isEvening 10 20 6 = false
  /\ isEvening 12 8 18 = true /\ isEvening 20 8 18 = false.
Proof.
  intros _. unfold isEvening.
  repeat split; try reflexivity; intros;
    destruct (Z.ltb_spec start stop); try lia;
    rewrite ?andb_true_iff, ?orb_true_iff, ?Z.leb_le, ?Z.ltb_lt in *; lia.
Qed.

Lemma isEvening_window_witness :
  0 <= 23 <= 23 /\ (isEvening 23 20 6 = true <-> 23 >= 20 \/ 23 < 6).
Proof.
  split; [lia|].
  apply (isEvening_window 23 20 6); lia.
Defined.

(** ** Proof steps shared by the state lemmas *)

(** Case analysis on the test of a conditional, innermost tests first. *)
Ltac case_if :=
  match goal with
  | |- context [if ?c then _ else _] =>
      lazymatch c with
      | context [if _ then _ else _] => fail
      | _ => destruct c eqn:?
      end
  end.

Ltac cases := repeat (case_if; cbn in * ).

(** Case analysis on every button poll, editor state or mode in sight, once
    the state is opened into its fields. *)
Ltac case_polls :=
  repeat match goal with
         | H : poll ?b ?s = _ |- context [poll ?b ?s] => rewrite H; cbn
         | |- context [poll ?b ?s] =>
             is_var b; destruct (poll b s) as [[] ?] eqn:?; cbn
         end.

Ltac case_enums :=
  repeat match goal with
         | e : NightEditState |- _ => destruct e; cbn in *; try congruence
         | m : Mode |- _ => destruct m; cbn in *; try congruence
         end.

(** Decides every test of an unfolded function body. *)
Ltac by_cases := cbn; repeat case_if; cbn; try reflexivity; try congruence.

(** ** Hours *)

Lemma int8_t_small z : -128 <= z < 128 -> int8_t z = z.
Proof. intros H. unfold int8_t. rewrite Z.mod_small; lia. Qed.

Lemma wrapHour_range x : 0 <= wrapHour x <= 23.
Proof.
  unfold wrapHour, uint8_t.
  destruct (Z.ltb_spec (int8_t x) 0); [lia|].
  destruct (Z.ltb_spec 23 (int8_t x)); [lia|].
  rewrite Z.mod_small; lia.
Qed.

Lemma wrapHour_succ h : 0 <= h <= 23 -> wrapHour (int8_t h + 1) = (h + 1) mod 24.
Proof.
  intros H. unfold wrapHour, uint8_t.
  rewrite !int8_t_small by (rewrite ?int8_t_small; lia).
  destruct (Z.ltb_spec (h + 1) 0); [lia|].
  destruct (Z.ltb_spec 23 (h + 1)).
  - assert (h = 23) by lia. subst. reflexivity.
  - rewrite !Z.mod_small; lia.
Qed.

Lemma wrapHour_pred h : 0 <= h <= 23 -> wrapHour (int8_t h - 1) = (h - 1) mod 24.
Proof.
  intros H. unfold wrapHour, uint8_t.
  rewrite !int8_t_small by (rewrite ?int8_t_small; lia).
  destruct (Z.ltb_spec (h - 1) 0).
  - assert (h = 0) by lia. subst. reflexivity.
  - destruct (Z.ltb_spec 23 (h - 1)); [lia|]. rewrite !Z.mod_small; lia.
Qed.

(** ** What each function leaves alone *)

Lemma execLine_frame st :
  editor (execLine st) = editor st /\ pads (execLine st) = pads st
  /\ signalling (execLine st) = signalling st.
Proof. unfold execLine, editor, pads, signalling. by_cases; repeat split. Qed.

Lemma readChar_frame c st :
  editor (readChar c st) = editor st /\ pads (readChar c st) = pads st
  /\ signalling (readChar c st) = signalling st.
Proof.
  unfold readChar. case_if; [apply execLine_frame|].
  unfold editor, pads, signalling. by_cases; repeat split.
Qed.

Lemma readCmd_frame rx :
  forall st,
    editor (readCmd rx st) = editor st /\ pads (readCmd rx st) = pads st
    /\ signalling (readCmd rx st) = signalling st.
Proof.
  induction rx as [|c rx IH]; intros st; cbn; [tauto|].
  destruct (IH (readChar c st)) as (-> & -> & ->). apply readChar_frame.
Qed.

Lemma readCmd_nightPressed rx inp st :
  nightPressed inp (readCmd rx st) = nightPressed inp st.
Proof.
  unfold nightPressed.
  destruct (readCmd_frame rx st) as (_ & H & _). unfold pads in H.
  now inversion H.
Qed.

Lemma nightBlock_nightEdit inp st :
  nightEdit (nightBlock inp st) =
  if nightPressed inp st then advance (nightEdit st) else nightEdit st.
Proof.
  unfold nightBlock, nightPressed, pressNight.
  destruct st; cbn. case_polls; case_enums; reflexivity.
Qed.

Lemma nightBlock_frame inp st :
  bMode (nightBlock inp st) = bMode st /\ bTog (nightBlock inp st) = bTog st
  /\ mode (nightBlock inp st) = mode st
  /\ manualLED (nightBlock inp st) = manualLED st
  /\ intervalMs (nightBlock inp st) = intervalMs st
  /\ signalling (nightBlock inp st) = signalling st.
Proof.
  unfold nightBlock, pressNight, signalling.
  destruct st; cbn. case_polls; case_enums; repeat split.
Qed.

Lemma editBlock_spec inp st :
  nightEdit st <> NIGHT_EDIT_OFF ->
  let h1 :=
    if modePressed inp st then wrapHour (int8_t (edited st) - 1) else edited st in
  edited (editBlock inp st) =
    (if togPressed inp st then wrapHour (int8_t h1 + 1) else h1)
  /\ unedited (editBlock inp st) = unedited st.
Proof.
  intros Hne.
  unfold editBlock, editMinus, editPlus, edited, unedited, modePressed, togPressed.
  destruct st; cbn in *. case_enums; case_polls; repeat split.
Qed.

Lemma editBlock_frame inp st :
  nightEdit (editBlock inp st) = nightEdit st
  /\ settings (editBlock inp st) = settings st
  /\ signalling (editBlock inp st) = signalling st.
Proof.
  unfold editBlock, editMinus, editPlus, settings, signalling.
  destruct st; cbn in *. case_enums; case_polls; repeat split.
Qed.

Lemma normalBlock_frame inp st :
  editor (normalBlock inp st) = editor st
  /\ window (normalBlock inp st) = window st
  /\ intervalMs (normalBlock inp st) = intervalMs st
  /\ signalling (normalBlock inp st) = signalling st.
Proof.
  unfold normalBlock, pressMode, pressTog, editor, window, signalling.
  destruct st; cbn in *. case_enums; case_polls; repeat split.
Qed.

Lemma handleButtons_nightEdit inp st :
  nightEdit (handleButtons inp st) =
  if nightPressed inp st then advance (nightEdit st) else nightEdit st.
Proof.
  unfold handleButtons. rewrite <- nightBlock_nightEdit.
  case_if.
  - apply editBlock_frame.
  - destruct (normalBlock_frame inp (nightBlock inp st)) as (H & _).
    unfold editor in H. now inversion H.
Qed.

Lemma handleButtons_signalling inp st :
  signalling (handleButtons inp st) = signalling st.
Proof.
  unfold handleButtons.
  destruct (nightBlock_frame inp st) as (_ & _ & _ & _ & _ & <-).
  case_if; [apply editBlock_frame | apply normalBlock_frame].
Qed.

Lemma ledAlarmUpdate_frame w c base ms st :
  editor (ledAlarmUpdate w c base ms st) = editor st
  /\ window (ledAlarmUpdate w c base ms st) = window st
  /\ settings (ledAlarmUpdate w c base ms st) = settings st.
Proof. unfold ledAlarmUpdate, editor, window, settings. by_cases; repeat split. Qed.

Lemma buzzerPassive_frame w c ms st :
  editor (buzzerPassive w c ms st) = editor st
  /\ window (buzzerPassive w c ms st) = window st
  /\ settings (buzzerPassive w c ms st) = settings st
  /\ pinLED (buzzerPassive w c ms st) = pinLED st
  /\ blinkOn (buzzerPassive w c ms st) = blinkOn st.
Proof. unfold buzzerPassive, editor, window, settings. by_cases; repeat split. Qed.

Lemma updateLogic_frame st :
  nightEdit (updateLogic st) = nightEdit st
  /\ editStartH (updateLogic st) = editStartH st
  /\ editEndH (updateLogic st) = editEndH st
  /\ window (updateLogic st) = window st
  /\ settings (updateLogic st) = settings st
  /\ pinLED (updateLogic st) = pinLED st
  /\ buzzTone (updateLogic st) = buzzTone st
  /\ blinkOn (updateLogic st) = blinkOn st
  /\ beepOn (updateLogic st) = beepOn st.
Proof. unfold updateLogic, window, settings. by_cases; repeat split. Qed.

Lemma drawOLED_frame ms st :
  nightEdit (drawOLED ms st) = nightEdit st
  /\ editStartH (drawOLED ms st) = editStartH st
  /\ editEndH (drawOLED ms st) = editEndH st
  /\ window (drawOLED ms st) = window st
  /\ settings (drawOLED ms st) = settings st
  /\ pinLED (drawOLED ms st) = pinLED st
  /\ buzzTone (drawOLED ms st) = buzzTone st
  /\ blinkOn (drawOLED ms st) = blinkOn st
  /\ beepOn (drawOLED ms st) = beepOn st.
Proof. unfold drawOLED, window, settings. by_cases; repeat split. Qed.

Lemma senseTask_frame inp st :
  nightEdit (senseTask inp st) = nightEdit st
  /\ editStartH (senseTask inp st) = editStartH st
  /\ editEndH (senseTask inp st) = editEndH st
  /\ window (senseTask inp st) = window st
  /\ settings (senseTask inp st) = settings st
  /\ pinLED (senseTask inp st) = pinLED st
  /\ buzzTone (senseTask inp st) = buzzTone st
  /\ blinkOn (senseTask inp st) = blinkOn st
  /\ beepOn (senseTask inp st) = beepOn st.
Proof.
  unfold senseTask.
  destruct (drawOLED_frame (msDraw inp)
             (updateLogic (set_now (inNow inp) (set_humP (inHum inp)
               (set_tempC (inTemp inp) (set_ldr (inLdr inp)
                 (set_lastReadMain (msMainStamp inp) st)))))))
    as (-> & -> & -> & -> & -> & -> & -> & -> & ->).
  destruct (updateLogic_frame
             (set_now (inNow inp) (set_humP (inHum inp)
               (set_tempC (inTemp inp) (set_ldr (inLdr inp)
                 (set_lastReadMain (msMainStamp inp) st))))))
    as (-> & -> & -> & -> & -> & -> & -> & -> & ->).
  repeat split.
Qed.

(** What follows the two button-driven calls in [loop]. *)
Lemma loop_tail_nightEdit inp st :
  nightEdit (loop inp st) = nightEdit (handleButtons (buttons inp) (readCmd (rx inp) st)).
Proof.
  unfold loop.
  set (st2 := handleButtons (buttons inp) (readCmd (rx inp) st)).
  set (st3 := ledAlarmUpdate _ _ _ _ st2).
  set (st4 := buzzerPassive _ _ _ st3).
  assert (E : nightEdit st4 = nightEdit st2).
  { subst st4 st3.
    destruct (buzzerPassive_frame (warningState (ledAlarmUpdate (warningState st2) (criticalState st2) (baseLedOn st2) (msLed inp) st2))
                (criticalState (ledAlarmUpdate (warningState st2) (criticalState st2) (baseLedOn st2) (msLed inp) st2))
                (msBuzz inp)
                (ledAlarmUpdate (warningState st2) (criticalState st2) (baseLedOn st2) (msLed inp) st2)) as (H & _).
    destruct (ledAlarmUpdate_frame (warningState st2) (criticalState st2) (baseLedOn st2) (msLed inp) st2) as (H' & _).
    unfold editor in *. inversion H. inversion H'. congruence. }
  rewrite <- E. clearbody st4. clear.
  repeat case_if; cbn; try reflexivity;
    try (now destruct (senseTask_frame inp st4) as (-> & _));
    try (now destruct (senseTask_frame inp (set_lastReadSend (msSendStamp inp) st4)) as (-> & _)).
Qed.

Lemma loop_nightEdit inp st :
  nightEdit (loop inp st) =
  if nightPressed (buttons inp) st then advance (nightEdit st) else nightEdit st.
Proof.
  rewrite loop_tail_nightEdit, handleButtons_nightEdit, readCmd_nightPressed.
  destruct (readCmd_frame (rx inp) st) as (H & _). unfold editor in H.
  inversion H. reflexivity.
Qed.

(** ** The night editor *)

(** C2. The editor state moves only when [handleButtons] registers a press
    of the night button, and then by exactly one step of the cycle
    Off -> EditingStart -> EditingEnd -> Off: after any run of the loop the
    state is the initial one advanced once per registered press.  A step never
    stays, never skips and never goes back; serial input, the other two
    buttons, the signalling functions and the sense task leave the state
    alone. *)
Theorem night_editor_cycle :
  (forall inps st,
      nightEdit (run inps st) =
      Nat.iter (nightPresses inps st) advance (nightEdit st))
  /\ (forall inp st,
         nightEdit (loop inp st) =
         if nightPressed (buttons inp) st
         then advance (nightEdit st) else nightEdit st)
  /\ (forall inp st,
         nightEdit (handleButtons inp st) =
         if nightPressed inp st then advance (nightEdit st) else nightEdit st)
  /\ (advance NIGHT_EDIT_OFF = NIGHT_EDIT_START
      /\ advance NIGHT_EDIT_START = NIGHT_EDIT_END
      /\ advance NIGHT_EDIT_END = NIGHT_EDIT_OFF)
  /\ (forall e, advance e <> e /\ advance (advance e) <> e
                /\ advance (advance (advance e)) = e)
  /\ (forall inp st, nightEdit (loop inp st) <> advance (advance (nightEdit st)))
  /\ (forall rx st, nightEdit (readCmd rx st) = nightEdit st)
  /\ (forall inp st, nightEdit (editBlock inp st) = nightEdit st)
  /\ (forall inp st, nightEdit (normalBlock inp st) = nightEdit st)
  /\ (forall w c base ms st, nightEdit (ledAlarmUpdate w c base ms st) = nightEdit st)
  /\ (forall w c ms st, nightEdit (buzzerPassive w c ms st) = nightEdit st)
  /\ (forall inp st, nightEdit (senseTask inp st) = nightEdit st).
Proof.
  repeat match goal with |- _ /\ _ => split end.
  - induction inps as [|i inps IH]; intros st; [reflexivity|].
    cbn [run nightPresses]. rewrite IH, loop_nightEdit.
    destruct (nightPressed (buttons i) st); cbn [Nat.add]; [|reflexivity].
    now rewrite Nat.iter_succ_r.
  - apply loop_nightEdit.
  - apply handleButtons_nightEdit.
  - reflexivity.
  - reflexivity.
  - reflexivity.
  - intros []; cbn; repeat split; discriminate.
  - intros inp st. rewrite loop_nightEdit.
    destruct (nightPressed (buttons inp) st), (nightEdit st); cbn; discriminate.
  - intros rx st. destruct (readCmd_frame rx st) as (H & _).
    unfold editor in H. now inversion H.
  - intros. apply editBlock_frame.
  - intros inp st. destruct (normalBlock_frame inp st) as (H & _).
    unfold editor in H. now inversion H.
  - intros w c base ms st. destruct (ledAlarmUpdate_frame w c base ms st) as (H & _).
    unfold editor in H. now inversion H.
  - intros w c ms st. destruct (buzzerPassive_frame w c ms st) as (H & _).
    unfold editor in H. now inversion H.
  - intros. apply senseTask_frame.
Qed.

Lemma handleButtons_window inp st :
  window (handleButtons inp st) =
  if nightPressed inp st && NightEditState_eqb (nightEdit st) NIGHT_EDIT_END
  then (editStartH st, editEndH st) else window st.
Proof.
  unfold handleButtons, nightBlock, editBlock, normalBlock, pressNight,
    editMinus, editPlus, pressMode, pressTog, window, nightPressed.
  destruct st; cbn. case_polls; case_enums; case_polls; reflexivity.
Qed.

Lemma handleButtons_edit inp st :
  nightEdit (nightBlock inp st) <> NIGHT_EDIT_OFF ->
  let st1 := nightBlock inp st in
  let h1 :=
    if modePressed inp st then wrapHour (int8_t (edited st1) - 1) else edited st1 in
  edited (handleButtons inp st) =
    (if togPressed inp st then wrapHour (int8_t h1 + 1) else h1)
  /\ unedited (handleButtons inp st) = unedited st1.
Proof.
  intros Hne. unfold handleButtons.
  destruct (NightEditState_eqb (nightEdit (nightBlock inp st)) NIGHT_EDIT_OFF) eqn:E.
  - destruct (nightEdit (nightBlock inp st)); cbn in E; congruence.
  - cbn [negb]. cbv zeta.
    replace (modePressed inp st) with (modePressed inp (nightBlock inp st)).
    replace (togPressed inp st) with (togPressed inp (nightBlock inp st)).
    + now apply editBlock_spec.
    + unfold togPressed. now destruct (nightBlock_frame inp st) as (_ & -> & _).
    + unfold modePressed. now destruct (nightBlock_frame inp st) as (-> & _).
Qed.

(** C3. What the night button's transitions do to the night window.
    Off -> EditingStart copies the committed window into the edit buffer and
    leaves the committed window as it is; EditingStart -> EditingEnd touches
    neither; EditingEnd -> Off writes the draft hours into the committed
    window.  Over a whole call of [handleButtons] the committed window changes
    in exactly one case, a registered night press in EditingEnd, and then to
    the draft; and a call that enters the editor leaves in the buffer the
    committed hours, adjusted by whatever -/+ press the same call registers
    on the start hour. *)
Theorem night_editor_commit :
  (forall ms st,
      nightEdit st = NIGHT_EDIT_OFF ->
      let st' := pressNight ms st in
      nightEdit st' = NIGHT_EDIT_START
      /\ editStartH st' = eveningStart st /\ editEndH st' = nightEnd st
      /\ window st' = window st)
  /\ (forall ms st,
         nightEdit st = NIGHT_EDIT_START ->
         let st' := pressNight ms st in
         nightEdit st' = NIGHT_EDIT_END
         /\ window st' = window st
         /\ editStartH st' = editStartH st /\ editEndH st' = editEndH st)
  /\ (forall ms st,
         nightEdit st = NIGHT_EDIT_END ->
         let st' := pressNight ms st in
         nightEdit st' = NIGHT_EDIT_OFF
         /\ eveningStart st' = editStartH st /\ nightEnd st' = editEndH st)
  /\ (forall inp st,
         window (handleButtons inp st) =
         if nightPressed inp st && NightEditState_eqb (nightEdit st) NIGHT_EDIT_END
         then (editStartH st, editEndH st) else window st)
  /\ (forall inp st,
         nightEdit st = NIGHT_EDIT_OFF -> nightPressed inp st = true ->
         let h1 :=
           if modePressed inp st
           then wrapHour (int8_t (eveningStart st) - 1) else eveningStart st in
         editStartH (handleButtons inp st) =
           (if togPressed inp st then wrapHour (int8_t h1 + 1) else h1)
         /\ editEndH (handleButtons inp st) = nightEnd st).
Proof.
  repeat match goal with |- _ /\ _ => split end.
  - intros ms st H. unfold pressNight, window. rewrite H. cbn. tauto.
  - intros ms st H. unfold pressNight, window. rewrite H. cbn. tauto.
  - intros ms st H. unfold pressNight. rewrite H. cbn. tauto.
  - apply handleButtons_window.
  - intros inp st Hoff Hp.
    assert (E : nightEdit (nightBlock inp st) = NIGHT_EDIT_START)
      by now rewrite nightBlock_nightEdit, Hp, Hoff.
    assert (B : editStartH (nightBlock inp st) = eveningStart st
                /\ editEndH (nightBlock inp st) = nightEnd st).
    { clear E. unfold nightBlock, nightPressed, pressNight in *.
      destruct st; cbn in *. subst. case_polls; [tauto | discriminate]. }
    assert (E' : nightEdit (handleButtons inp st) = NIGHT_EDIT_START)
      by now rewrite handleButtons_nightEdit, Hp, Hoff.
    pose proof (handleButtons_edit inp st) as HE. cbv zeta in HE.
    unfold edited, unedited in HE. rewrite E', E in HE. cbn in HE.
    destruct B as (B1 & B2). rewrite B1, B2 in HE. apply HE. discriminate.
Qed.

(** ** Editing the hours *)

Lemma editMinus_spec ms st :
  edited (editMinus ms st) = wrapHour (int8_t (edited st) - 1)
  /\ unedited (editMinus ms st) = unedited st
  /\ nightEdit (editMinus ms st) = nightEdit st /\ window (editMinus ms st) = window st.
Proof.
  unfold editMinus, edited, unedited, window. destruct st; cbn.
  case_enums; repeat split.
Qed.

Lemma editPlus_spec ms st :
  edited (editPlus ms st) = wrapHour (int8_t (edited st) + 1)
  /\ unedited (editPlus ms st) = unedited st
  /\ nightEdit (editPlus ms st) = nightEdit st /\ window (editPlus ms st) = window st.
Proof.
  unfold editPlus, edited, unedited, window. destruct st; cbn.
  case_enums; repeat split.
Qed.

Lemma hours_ok_frame st st' :
  editor st' = editor st -> window st' = window st -> hours_ok st -> hours_ok st'.
Proof.
  unfold editor, window, hours_ok. intros E W. inversion E. inversion W.
  congruence.
Qed.

Ltac wrapHour_bounds :=
  repeat match goal with
         | |- context [wrapHour ?x] =>
             lazymatch goal with
             | _ : 0 <= wrapHour x <= 23 |- _ => fail
             | _ => pose proof (wrapHour_range x)
             end
         end.

Lemma execLine_hours st : hours_ok st -> hours_ok (execLine st).
Proof.
  unfold hours_ok, execLine. intros H. cbn. repeat case_if; cbn;
    wrapHour_bounds; intuition.
Qed.

Lemma readCmd_hours rx : forall st, hours_ok st -> hours_ok (readCmd rx st).
Proof.
  induction rx as [|c rx IH]; intros st H; cbn; [assumption|].
  apply IH. unfold readChar. case_if; [now apply execLine_hours|].
  unfold hours_ok in *. by_cases; assumption.
Qed.

Lemma handleButtons_hours inp st : hours_ok st -> hours_ok (handleButtons inp st).
Proof.
  unfold hours_ok, handleButtons, nightBlock, editBlock, normalBlock, pressNight,
    editMinus, editPlus, pressMode, pressTog.
  destruct st; cbn. intros H.
  case_polls; case_enums; case_polls; wrapHour_bounds; intuition.
Qed.

Lemma loop_hours inp st : hours_ok st -> hours_ok (loop inp st).
Proof.
  intros H. unfold loop.
  set (st2 := handleButtons (buttons inp) (readCmd (rx inp) st)).
  assert (H2 : hours_ok st2) by now apply handleButtons_hours, readCmd_hours.
  clearbody st2.
  set (st3 := ledAlarmUpdate _ _ _ _ st2).
  assert (H3 : hours_ok st3).
  { eapply hours_ok_frame; [| |exact H2]; apply ledAlarmUpdate_frame. }
  clearbody st3.
  set (st4 := buzzerPassive _ _ _ st3).
  assert (H4 : hours_ok st4).
  { eapply hours_ok_frame; [| |exact H3]; apply buzzerPassive_frame. }
  clearbody st4.
  assert (S : forall s, hours_ok s -> hours_ok (senseTask inp s)).
  { intros s Hs. destruct (senseTask_frame inp s) as (E1 & E2 & E3 & W & _).
    eapply hours_ok_frame; [| exact W | exact Hs].
    unfold editor. now rewrite E1, E2, E3. }
  repeat case_if; try apply S; try assumption.
Qed.

Lemma run_hours inps : forall st, hours_ok st -> hours_ok (run inps st).
Proof.
  induction inps as [|i inps IH]; intros st H; cbn; [assumption|].
  now apply IH, loop_hours.
Qed.

Lemma boot_hours : hours_ok boot.
Proof. unfold hours_ok, boot; cbn; lia. Qed.

(** C8. While the editor is active (EditingStart or EditingEnd when the call
    reaches the two repurposed buttons), a registered press of the mode
    button takes one hour off the hour being edited and a registered press of
    the toggle button adds one, the other hour staying as it is.  On hours of
    the day both wrap: 23 + 1 gives 0 and 0 - 1 gives 23.  Every result of
    [wrapHour] is an hour of the day, and from power-up all four hours of the
    state remain within 0..23. *)
Theorem edit_buttons_wrap :
  (forall h, 0 <= h <= 23 ->
             wrapHour (int8_t h + 1) = (h + 1) mod 24
             /\ wrapHour (int8_t h - 1) = (h - 1) mod 24)
  /\ wrapHour (int8_t 23 + 1) = 0 /\ wrapHour (int8_t 0 - 1) = 23
  /\ (forall x, 0 <= wrapHour x <= 23)
  /\ (forall ms st,
         edited (editMinus ms st) = wrapHour (int8_t (edited st) - 1)
         /\ unedited (editMinus ms st) = unedited st)
  /\ (forall ms st,
         edited (editPlus ms st) = wrapHour (int8_t (edited st) + 1)
         /\ unedited (editPlus ms st) = unedited st)
  /\ (forall inp st,
         nightEdit (nightBlock inp st) <> NIGHT_EDIT_OFF ->
         let st1 := nightBlock inp st in
         let h1 :=
           if modePressed inp st
           then wrapHour (int8_t (edited st1) - 1) else edited st1 in
         edited (handleButtons inp st) =
           (if togPressed inp st then wrapHour (int8_t h1 + 1) else h1)
         /\ unedited (handleButtons inp st) = unedited st1)
  /\ (forall inps, hours_ok (run inps boot)).
Proof.
  repeat match goal with |- _ /\ _ => split end.
  - intros h H. split; [now apply wrapHour_succ | now apply wrapHour_pred].
  - reflexivity.
  - reflexivity.
  - apply wrapHour_range.
  - intros ms st. split; apply editMinus_spec.
  - intros ms st. split; apply editPlus_spec.
  - exact handleButtons_edit.
  - intros inps. apply run_hours, boot_hours.
Qed.

(** ** Alarm evaluation *)

Lemma Qltb_lt x y : Qltb x y = true <-> (x < y)%Q.
Proof.
  unfold Qltb. rewrite negb_true_iff. split; intros H.
  - apply Qnot_le_lt. intros L. apply Qle_bool_iff in L. congruence.
  - destruct (Qle_bool y x) eqn:E; [|reflexivity].
    apply Qle_bool_iff in E. exfalso. now apply (Qlt_not_le x y).
Qed.

Lemma outside_band lo hi x :
  Qltb x lo || Qltb hi x = true <-> outside lo hi x.
Proof. unfold outside. now rewrite orb_true_iff, !Qltb_lt. Qed.

Lemma updateLogic_flags st :
  warningState (updateLogic st) =
    (Qltb (tempC st) TEMP_WARN_LOW || Qltb TEMP_WARN_HIGH (tempC st))
    || (Qltb (humP st) HUM_WARN_LOW || Qltb HUM_WARN_HIGH (humP st))
  /\ criticalState (updateLogic st) =
    (Qltb (tempC st) TEMP_CRIT_LOW || Qltb TEMP_CRIT_HIGH (tempC st))
    || (Qltb (humP st) HUM_CRIT_LOW || Qltb HUM_CRIT_HIGH (humP st)).
Proof. unfold updateLogic. by_cases; split; reflexivity. Qed.

Lemma levelOf_evaluate t h st :
  levelOf (evaluate t h st) =
  alarmLevel
    ((Qltb t TEMP_WARN_LOW || Qltb TEMP_WARN_HIGH t)
     || (Qltb h HUM_WARN_LOW || Qltb HUM_WARN_HIGH h))
    ((Qltb t TEMP_CRIT_LOW || Qltb TEMP_CRIT_HIGH t)
     || (Qltb h HUM_CRIT_LOW || Qltb HUM_CRIT_HIGH h)).
Proof.
  unfold levelOf, evaluate.
  destruct (updateLogic_flags (set_humP h (set_tempC t st))) as (-> & ->).
  reflexivity.
Qed.

(** A reading outside its critical band is outside its warning band. *)
Lemma hum_bands_nested h :
  outside HUM_CRIT_LOW HUM_CRIT_HIGH h -> outside HUM_WARN_LOW HUM_WARN_HIGH h.
Proof.
  unfold outside, HUM_CRIT_LOW, HUM_CRIT_HIGH, HUM_WARN_LOW, HUM_WARN_HIGH.
  intros [H|H]; [left|right].
  - eapply Qlt_trans; [exact H|]. reflexivity.
  - eapply Qlt_trans; [|exact H]. reflexivity.
Qed.

(** C4. The alarm level computed by [updateLogic] from a temperature and a
    humidity reading: Critical iff some reading is outside its critical band,
    Warning iff none is but some reading is outside its warning band, Normal
    otherwise.  With the bands of the sketch, 11.0 degrees is Critical whatever
    the humidity; 15.0 degrees is a temperature warning, so the level is
    Warning exactly when the humidity is not itself critical; 20.0 degrees
    raises nothing, so the level is Normal exactly when the humidity is within
    its warning band (for instance at 50 percent). *)
Theorem alarm_level_bands :
  (forall st t h,
      let lvl := levelOf (evaluate t h st) in
      let crit := outside TEMP_CRIT_LOW TEMP_CRIT_HIGH t
                  \/ outside HUM_CRIT_LOW HUM_CRIT_HIGH h in
      let warn := outside TEMP_WARN_LOW TEMP_WARN_HIGH t
                  \/ outside HUM_WARN_LOW HUM_WARN_HIGH h in
      (lvl = Critical <-> crit)
      /\ (lvl = Warning <-> ~ crit /\ warn)
      /\ (lvl = Normal <-> ~ crit /\ ~ warn))
  /\ (forall st h, levelOf (evaluate 11 h st) = Critical)
  /\ (forall st h,
         levelOf (evaluate 15 h st) = Warning
         <-> ~ outside HUM_CRIT_LOW HUM_CRIT_HIGH h)
  /\ (forall st h,
         levelOf (evaluate 20 h st) = Normal
         <-> ~ outside HUM_WARN_LOW HUM_WARN_HIGH h)
  /\ (forall st, levelOf (evaluate 15 50 st) = Warning
                 /\ levelOf (evaluate 20 50 st) = Normal).
Proof.
  repeat match goal with |- _ /\ _ => split end.
  - intros st t h lvl crit warn. subst lvl crit warn.
    rewrite levelOf_evaluate. rewrite <- !outside_band.
    rewrite <- !orb_true_iff. unfold alarmLevel.
    destruct (_ || _ || _), (_ || _ || _); repeat split; intros;
      try discriminate; try tauto; try congruence.
    all: intuition congruence.
  - intros st h. rewrite levelOf_evaluate. reflexivity.
  - intros st h. rewrite levelOf_evaluate. rewrite <- outside_band.
    change (Qltb 15 TEMP_CRIT_LOW || Qltb TEMP_CRIT_HIGH 15) with false.
    change (Qltb 15 TEMP_WARN_LOW || Qltb TEMP_WARN_HIGH 15) with true.
    cbn [orb]. unfold alarmLevel. destruct (_ || _); intuition congruence.
  - intros st h. rewrite levelOf_evaluate.
    change (Qltb 20 TEMP_CRIT_LOW || Qltb TEMP_CRIT_HIGH 20) with false.
    change (Qltb 20 TEMP_WARN_LOW || Qltb TEMP_WARN_HIGH 20) with false.
    cbn [orb]. pose proof (hum_bands_nested h) as N.
    rewrite <- !outside_band in *. unfold alarmLevel.
    destruct (Qltb h HUM_WARN_LOW || Qltb HUM_WARN_HIGH h),
      (Qltb h HUM_CRIT_LOW || Qltb HUM_CRIT_HIGH h);
      split; intros; try congruence; try discriminate.
    all: try (exfalso; intuition congruence).
  - intros st. rewrite !levelOf_evaluate. split; reflexivity.
Qed.

(** ** Mode and base output *)

Lemma updateLogic_baseLedOn st :
  baseLedOn (updateLogic st) =
  match mode st with
  | AUTO => ambient_dark st || is_night_window st
  | MANUAL => manualLED st
  end.
Proof.
  unfold updateLogic, ambient_dark, is_night_window.
  destruct st; cbn. case_enums; reflexivity.
Qed.

Lemma set_cmd_same st : set_cmd (cmd st) st = st.
Proof. now destruct st. Qed.

Lemma String_append_nil_r s : (s ++ "")%string = s.
Proof. induction s; cbn; congruence. Qed.

Lemma String_append_assoc a b c : ((a ++ b) ++ c = a ++ (b ++ c))%string.
Proof. induction a; cbn; congruence. Qed.

Lemma String_length_append a b :
  String.length (a ++ b)%string = (String.length a + String.length b)%nat.
Proof. induction a; cbn; congruence. Qed.

Lemma readCmd_app l1 l2 st : readCmd (l1 ++ l2) st = readCmd l2 (readCmd l1 st).
Proof. revert st. induction l1; cbn; auto. Qed.

(** Bytes without a newline only grow the buffer, as long as it has room. *)
Lemma readCmd_payload l :
  forall st,
    ~ In NL l ->
    (String.length (cmd st) + String.length (payload l) <= 20)%nat ->
    readCmd l st = set_cmd (cmd st ++ payload l)%string st.
Proof.
  induction l as [|c l IH]; intros st Hnl Hlen.
  - cbn. unfold payload. cbn. now rewrite String_append_nil_r, set_cmd_same.
  - cbn [readCmd]. unfold readChar.
    destruct (Ascii.eqb_spec c NL) as [->|Hc]; [exfalso; apply Hnl; now left|].
    assert (Hnl' : ~ In NL l) by (intros H; apply Hnl; now right).
    unfold payload in *. cbn [filter] in *.
    destruct (Ascii.eqb c CR) eqn:Ecr; cbn [negb] in *.
    + now apply IH.
    + cbn [string_of_list_ascii String.length] in Hlen.
      cbn [cmd set_cmd].
      replace (cmd (set_cmd (cmd st ++ String c "") st)) with (cmd st ++ String c "")%string by now destruct st.
      destruct (Z.ltb_spec 20 (Z.of_nat (String.length (cmd st ++ String c "")))) as [L|L].
      { rewrite String_length_append in L. cbn in L. lia. }
      rewrite IH; try assumption.
      * replace (cmd (set_cmd (cmd st ++ String c "") st)) with (cmd st ++ String c "")%string by now destruct st.
        rewrite String_append_assoc. cbn. now destruct st.
      * replace (cmd (set_cmd (cmd st ++ String c "") st)) with (cmd st ++ String c "")%string by now destruct st.
        rewrite String_length_append. cbn. lia.
Qed.

Lemma readCmd_line l st :
  cmd st = "" -> ~ In NL l -> (String.length (payload l) <= 20)%nat ->
  readCmd (l ++ [NL]) st = execLine (set_cmd (payload l) st).
Proof.
  intros E Hnl Hlen. rewrite readCmd_app, (readCmd_payload l st); try assumption.
  - rewrite E. reflexivity.
  - rewrite E. cbn. lia.
Qed.

Lemma handleButtons_enter_manual inp st :
  mode st = AUTO -> mode (handleButtons inp st) = MANUAL ->
  modePressed inp st = true
  /\ manualLED (handleButtons inp st) = togPressed inp st.
Proof.
  unfold handleButtons, nightBlock, editBlock, normalBlock, pressNight,
    editMinus, editPlus, pressMode, pressTog, modePressed, togPressed.
  destruct st; cbn. intros -> .
  case_polls; case_enums; case_polls; intros; try discriminate; split; reflexivity.
Qed.

(** C6. Base output and entry into Manual.  [updateLogic] sets the base
    output to [ambient_dark || is_night_window] in Auto and to the manual LED
    request in Manual.  Both ways into Manual reset the request: the mode
    button's action taken in Auto, and the serial command ML (on the command
    itself, and on the line ML received with an empty buffer).  Over a whole
    call of [handleButtons] that goes from Auto to Manual, the mode button was
    registered and the request ends up off, whatever it was before, unless the
    same call also registers the toggle button, which then switches it on from
    the reset value. *)
Theorem base_output_and_manual_entry :
  (forall st, mode st = AUTO ->
              baseLedOn (updateLogic st) = ambient_dark st || is_night_window st)
  /\ (forall st, mode st = MANUAL -> baseLedOn (updateLogic st) = manualLED st)
  /\ (forall st, mode st = AUTO ->
                 mode (pressMode st) = MANUAL /\ manualLED (pressMode st) = false)
  /\ (forall st, trim (cmd st) = "ML" ->
                 mode (execLine st) = MANUAL /\ manualLED (execLine st) = false)
  /\ (forall st, cmd st = "" ->
                 mode (readCmd (line "ML") st) = MANUAL
                 /\ manualLED (readCmd (line "ML") st) = false)
  /\ (forall inp st,
         mode st = AUTO -> mode (handleButtons inp st) = MANUAL ->
         modePressed inp st = true
         /\ manualLED (handleButtons inp st) = togPressed inp st).
Proof.
  repeat match goal with |- _ /\ _ => split end.
  - intros st H. now rewrite updateLogic_baseLedOn, H.
  - intros st H. now rewrite updateLogic_baseLedOn, H.
  - intros st H. unfold pressMode. destruct st; cbn in *. subst. cbn. tauto.
  - intros st H. unfold execLine. cbn. rewrite H. cbn. tauto.
  - intros st H. unfold line, bytes. rewrite readCmd_line; try assumption.
    + unfold execLine. cbn. tauto.
    + cbn. unfold NL. intuition discriminate.
    + cbn. lia.
  - exact handleButtons_enter_manual.
Qed.

(** ** Alarm signalling *)

Lemma ledAlarmUpdate_spec w c base ms st :
  let st' := ledAlarmUpdate w c base ms st in
  let due := 200 <=? elapsed (ledLastToggle st) ms in
  match alarmLevel w c with
  | Critical =>
      pinLED st' = HIGH
      /\ blinkOn st' = blinkOn st /\ ledLastToggle st' = ledLastToggle st
  | Warning =>
      blinkOn st' = (if due then negb (blinkOn st) else blinkOn st)
      /\ ledLastToggle st' = (if due then ms else ledLastToggle st)
      /\ pinLED st' = blinkOn st'
  | Normal =>
      pinLED st' = base
      /\ blinkOn st' = blinkOn st /\ ledLastToggle st' = ledLastToggle st
  end.
Proof.
  unfold ledAlarmUpdate, alarmLevel, HIGH, LOW.
  destruct st; cbn.
  destruct c, w; cbn; cases; repeat split;
    try reflexivity; try congruence;
    destruct base; reflexivity.
Qed.

Lemma buzzerPassive_spec w c ms st :
  let st' := buzzerPassive w c ms st in
  let due := 200 <=? elapsed (buzzLastToggle st) ms in
  match alarmLevel w c with
  | Critical =>
      buzzTone st' = Some 2000
      /\ beepOn st' = beepOn st /\ buzzLastToggle st' = buzzLastToggle st
  | Warning =>
      if due
      then beepOn st' = negb (beepOn st) /\ buzzLastToggle st' = ms
           /\ buzzTone st' = (if beepOn st' then Some 1200 else None)
      else st' = st
  | Normal =>
      buzzTone st' = None
      /\ beepOn st' = beepOn st /\ buzzLastToggle st' = buzzLastToggle st
  end.
Proof.
  unfold buzzerPassive, alarmLevel.
  destruct st; cbn.
  destruct c, w; cbn; cases; repeat split;
    try reflexivity; try congruence.
Qed.

Lemma senseTask_outputs inp st :
  pinLED (senseTask inp st) = pinLED st /\ buzzTone (senseTask inp st) = buzzTone st.
Proof. split; apply senseTask_frame. Qed.

(** The pins after a pass of the loop are the pins as the two signalling
    functions set them from the flags found at the start of the pass. *)
Lemma loop_outputs inp st :
  pinLED (loop inp st) =
    pinLED (ledAlarmUpdate (warningState st) (criticalState st) (baseLedOn st)
              (msLed inp) st)
  /\ buzzTone (loop inp st) =
    buzzTone (buzzerPassive (warningState st) (criticalState st) (msBuzz inp) st).
Proof.
  unfold loop.
  set (st2 := handleButtons (buttons inp) (readCmd (rx inp) st)).
  assert (S2 : signalling st2 = signalling st).
  { subst st2. rewrite handleButtons_signalling. apply readCmd_frame. }
  clearbody st2.
  set (st3 := ledAlarmUpdate _ _ _ _ st2).
  set (st4 := buzzerPassive _ _ _ st3).
  assert (E : pinLED st4 =
              pinLED (ledAlarmUpdate (warningState st) (criticalState st)
                        (baseLedOn st) (msLed inp) st)
              /\ buzzTone st4 =
                 buzzTone (buzzerPassive (warningState st) (criticalState st)
                             (msBuzz inp) st)).
  { subst st4 st3. revert S2. clear.
    unfold signalling, ledAlarmUpdate, buzzerPassive.
    destruct st, st2; cbn. intros H. inversion H. subst.
    cases; split; congruence. }
  clearbody st4. clear st3 S2.
  destruct E as (<- & <-).
  repeat case_if; cbn;
    try match goal with
        | |- context [senseTask inp ?s] =>
            destruct (senseTask_outputs inp s) as (-> & ->)
        end;
    split; reflexivity.
Qed.

Lemma execLine_lastReadMain st : lastReadMain (execLine st) = lastReadMain st.
Proof. unfold execLine. destruct st; cbn. cases; reflexivity. Qed.

Lemma readCmd_lastReadMain rx :
  forall st, lastReadMain (readCmd rx st) = lastReadMain st.
Proof.
  induction rx as [|c rx IH]; intros st; cbn; [reflexivity|].
  rewrite IH. unfold readChar. case_if; [apply execLine_lastReadMain|].
  destruct st; cbn. cases; reflexivity.
Qed.

Lemma handleButtons_lastReadMain inp st :
  lastReadMain (handleButtons inp st) = lastReadMain st.
Proof.
  unfold handleButtons, nightBlock, editBlock, normalBlock, pressNight,
    editMinus, editPlus, pressMode, pressTog.
  destruct st; cbn. case_polls; case_enums; case_polls; reflexivity.
Qed.

Lemma elapsed_real t0 t :
  0 <= t0 <= t -> t < ULONG_MOD -> elapsed t0 t = t - t0.
Proof.
  intros H L. unfold elapsed, ulong. apply Z.mod_small. lia.
Qed.

Lemma updateLogic_clock st :
  buzzLastToggle (updateLogic st) = buzzLastToggle st
  /\ ledLastToggle (updateLogic st) = ledLastToggle st
  /\ beepOn (updateLogic st) = beepOn st
  /\ lastReadMain (updateLogic st) = lastReadMain st.
Proof. unfold updateLogic. destruct st; cbn. cases; repeat split. Qed.

Lemma drawOLED_clock ms st :
  buzzLastToggle (drawOLED ms st) = buzzLastToggle st
  /\ ledLastToggle (drawOLED ms st) = ledLastToggle st
  /\ beepOn (drawOLED ms st) = beepOn st
  /\ lastReadMain (drawOLED ms st) = lastReadMain st
  /\ levelOf (drawOLED ms st) = levelOf st.
Proof. unfold drawOLED, levelOf. destruct st; cbn. cases; repeat split. Qed.

Lemma senseTask_clock inp st :
  buzzLastToggle (senseTask inp st) = buzzLastToggle st
  /\ ledLastToggle (senseTask inp st) = ledLastToggle st
  /\ beepOn (senseTask inp st) = beepOn st
  /\ lastReadMain (senseTask inp st) = msMainStamp inp
  /\ levelOf (senseTask inp st) = levelOf (evaluate (inTemp inp) (inHum inp) st).
Proof.
  unfold senseTask.
  match goal with
  | |- context [drawOLED ?ms ?s] =>
      destruct (drawOLED_clock ms s) as (-> & -> & -> & -> & ->)
  end.
  match goal with
  | |- context [updateLogic ?s] =>
      destruct (updateLogic_clock s) as (-> & -> & -> & ->)
  end.
  repeat split. rewrite levelOf_evaluate. unfold levelOf.
  match goal with
  | |- context [updateLogic ?s] =>
      destruct (updateLogic_flags s) as (-> & ->)
  end.
  reflexivity.
Qed.

(** The clock fields and the level after a pass of the loop. *)
Lemma loop_clock inp st :
  let w := warningState st in
  let c := criticalState st in
  buzzLastToggle (loop inp st) = buzzLastToggle (buzzerPassive w c (msBuzz inp) st)
  /\ ledLastToggle (loop inp st) =
       ledLastToggle (ledAlarmUpdate w c (baseLedOn st) (msLed inp) st)
  /\ beepOn (loop inp st) = beepOn (buzzerPassive w c (msBuzz inp) st)
  /\ lastReadMain (loop inp st) =
       (if senseDue inp st then msMainStamp inp else lastReadMain st)
  /\ levelOf (loop inp st) =
       (if senseDue inp st
        then levelOf (evaluate (inTemp inp) (inHum inp) st) else levelOf st).
Proof.
  cbv zeta. unfold loop, senseDue.
  set (st2 := handleButtons (buttons inp) (readCmd (rx inp) st)).
  assert (S2 : signalling st2 = signalling st).
  { subst st2. rewrite handleButtons_signalling. apply readCmd_frame. }
  assert (M2 : lastReadMain st2 = lastReadMain st).
  { subst st2. now rewrite handleButtons_lastReadMain, readCmd_lastReadMain. }
  clearbody st2.
  set (st3 := ledAlarmUpdate _ _ _ _ st2).
  set (st4 := buzzerPassive _ _ _ st3).
  assert (E : buzzLastToggle st4 =
                buzzLastToggle (buzzerPassive (warningState st) (criticalState st) (msBuzz inp) st)
              /\ ledLastToggle st4 =
                ledLastToggle (ledAlarmUpdate (warningState st) (criticalState st)
                                 (baseLedOn st) (msLed inp) st)
              /\ beepOn st4 =
                beepOn (buzzerPassive (warningState st) (criticalState st) (msBuzz inp) st)
              /\ lastReadMain st4 = lastReadMain st
              /\ levelOf st4 = levelOf st).
  { subst st4 st3. revert S2 M2. clear.
    unfold signalling, ledAlarmUpdate, buzzerPassive, levelOf.
    destruct st, st2; cbn. intros S2 M2. inversion S2. subst.
    cases; repeat split; congruence. }
  clearbody st4. clear st3 S2 M2 st2.
  destruct E as (<- & <- & <- & <- & <-).
  destruct (intervalMs st4 <=? elapsed (lastReadSend st4) (msSendCheck inp));
    change (lastReadMain (set_lastReadSend (msSendStamp inp) st4))
      with (lastReadMain st4);
    destruct (250 <=? elapsed (lastReadMain st4) (msMainCheck inp));
    try match goal with
        | |- context [senseTask inp ?s] =>
            destruct (senseTask_clock inp s) as (-> & -> & -> & -> & ->)
        end;
    rewrite ?levelOf_evaluate; repeat split; reflexivity.
Qed.

Lemma buzzerPassive_toggle w c ms st :
  buzzLastToggle (buzzerPassive w c ms st) =
  if negb c && w && (200 <=? elapsed (buzzLastToggle st) ms)
  then ms else buzzLastToggle st.
Proof. unfold buzzerPassive. destruct st; cbn. destruct c, w; cbn; cases; reflexivity. Qed.

Lemma ledAlarmUpdate_toggle w c base ms st :
  ledLastToggle (ledAlarmUpdate w c base ms st) =
  if negb c && w && (200 <=? elapsed (ledLastToggle st) ms)
  then ms else ledLastToggle st.
Proof. unfold ledAlarmUpdate. destruct st; cbn. destruct c, w; cbn; cases; reflexivity. Qed.

Lemma levelOf_Warning st :
  levelOf st = Warning <-> criticalState st = false /\ warningState st = true.
Proof.
  unfold levelOf, alarmLevel. destruct (criticalState st), (warningState st);
    intuition congruence.
Qed.

Lemma loop_clocked T inp T' st :
  timed T inp T' -> clocked T st -> clocked T' (loop inp st).
Proof.
  unfold timed, clocked. intros Ht (B & L & M & I).
  destruct (loop_clock inp st) as (-> & -> & _ & -> & E). cbv zeta in *.
  rewrite E, buzzerPassive_toggle, ledAlarmUpdate_toggle. clear E.
  assert (W : negb (criticalState st) && warningState st = true <-> levelOf st = Warning).
  { rewrite levelOf_Warning. destruct (criticalState st), (warningState st); cbn; intuition congruence. }
  destruct (negb (criticalState st) && warningState st) eqn:EW; cbn [andb].
  - destruct (senseDue inp st); repeat case_if;
      (split; [lia|]; split; [lia|]; split; [lia|]);
      intros N; try (split; lia); exfalso; apply N; now apply W.
  - assert (N : levelOf st <> Warning) by (intros G; apply W in G; discriminate).
    specialize (I N).
    destruct (senseDue inp st);
      (split; [lia|]; split; [lia|]; split; [lia|]); intros _; split; lia.
Qed.

Lemma boot_clocked : clocked 0 boot.
Proof. unfold clocked, boot. cbn. repeat split; try lia. Qed.

(** The first pass that finds Warning after a pass that did not finds both
    flips due. *)
Lemma deescalation_flip_due T inp T' inp' T'' st :
  clocked T st -> timed T inp T' -> timed T' inp' T'' ->
  levelOf st <> Warning -> levelOf (loop inp st) = Warning ->
  (200 <=? elapsed (buzzLastToggle (loop inp st)) (msBuzz inp')) = true
  /\ (200 <=? elapsed (ledLastToggle (loop inp st)) (msLed inp')) = true.
Proof.
  unfold timed, clocked. intros (B & L & M & I) Ht Ht' N W.
  destruct (loop_clock inp st) as (E1 & E2 & _ & _ & E). cbv zeta in *.
  rewrite E1, E2, buzzerPassive_toggle, ledAlarmUpdate_toggle.
  assert (X : negb (criticalState st) && warningState st = false).
  { destruct (negb (criticalState st) && warningState st) eqn:EW; [|reflexivity].
    exfalso. apply N. apply levelOf_Warning.
    destruct (criticalState st), (warningState st); cbn in EW; auto; discriminate. }
  rewrite X. cbn [andb]. specialize (I N).
  rewrite E in W. unfold senseDue in W.
  destruct (Z.leb_spec 250 (elapsed (lastReadMain st) (msMainCheck inp))) as [D|D];
    [|contradiction].
  rewrite elapsed_real in D by lia.
  rewrite !elapsed_real by lia. split; apply Z.leb_le; lia.
Qed.

Lemma chained_app T xs ys :
  chained T (xs ++ ys) <-> chained T xs /\ chained (endTime T xs) ys.
Proof.
  revert T. induction xs as [|x xs IH]; intros T; cbn [app chained endTime].
  - tauto.
  - rewrite IH. tauto.
Qed.

Lemma run_clocked inps :
  forall T st, chained T inps -> clocked T st ->
               clocked (endTime T inps) (run inps st).
Proof.
  induction inps as [|i inps IH]; intros T st H C; cbn [run endTime]; [exact C|].
  destruct H as (H1 & H2). apply IH; [exact H2|].
  exact (loop_clocked T i (msDraw i) st H1 C).
Qed.

(** C7. Signalling by priority, decided afresh at every call.
    [ledAlarmUpdate]: under Critical the LED is driven HIGH whatever the base
    output; under Warning the blink state flips whenever 200 ms or more have
    passed since the last flip and the LED shows the blink state, whatever the
    base output; under Normal the LED is the base output.  [buzzerPassive]:
    under Critical the 2000 Hz tone; under Warning the beep state flips every
    200 ms or more, each flip starting the 1200 Hz tone or silencing the
    buzzer, and the buzzer is changed at those flips only; under Normal
    silence.  Neither function remembers the level of earlier calls: after
    any pass of the loop the LED pin, and under Critical and Normal the
    buzzer, are what the level found at the start of that pass dictates, so a
    condition cleared to Normal is signalled as cleared on the very next
    pass.  When the level comes down to Warning, the step down happens on
    the next pass provided the clock readings are taken in call order and
    the millisecond counter has not wrapped: then both flips are due on that
    pass (the level only changes in the 250 ms task), so the LED starts
    blinking and the buzzer beeping at once.  This holds in particular along
    every run from power-up with such a clock.  Without the proviso the
    buzzer keeps the tone it had until its next flip is due. *)
Theorem alarm_signalling_priority :
  (forall w c base ms st,
      let st' := ledAlarmUpdate w c base ms st in
      let due := 200 <=? elapsed (ledLastToggle st) ms in
      match alarmLevel w c with
      | Critical =>
          pinLED st' = HIGH
          /\ blinkOn st' = blinkOn st /\ ledLastToggle st' = ledLastToggle st
      | Warning =>
          blinkOn st' = (if due then negb (blinkOn st) else blinkOn st)
          /\ ledLastToggle st' = (if due then ms else ledLastToggle st)
          /\ pinLED st' = blinkOn st'
      | Normal =>
          pinLED st' = base
          /\ blinkOn st' = blinkOn st /\ ledLastToggle st' = ledLastToggle st
      end)
  /\ (forall w c ms st,
         let st' := buzzerPassive w c ms st in
         let due := 200 <=? elapsed (buzzLastToggle st) ms in
         match alarmLevel w c with
         | Critical =>
             buzzTone st' = Some 2000
             /\ beepOn st' = beepOn st /\ buzzLastToggle st' = buzzLastToggle st
         | Warning =>
             if due
             then beepOn st' = negb (beepOn st) /\ buzzLastToggle st' = ms
                  /\ buzzTone st' = (if beepOn st' then Some 1200 else None)
             else st' = st
         | Normal =>
             buzzTone st' = None
             /\ beepOn st' = beepOn st /\ buzzLastToggle st' = buzzLastToggle st
         end)
  /\ (forall w c base base' ms st,
         alarmLevel w c <> Normal ->
         ledAlarmUpdate w c base ms st = ledAlarmUpdate w c base' ms st)
  /\ (forall inp st,
         let st' := loop inp st in
         match levelOf st with
         | Critical => pinLED st' = HIGH /\ buzzTone st' = Some 2000
         | Warning =>
             pinLED st' =
               (if 200 <=? elapsed (ledLastToggle st) (msLed inp)
                then negb (blinkOn st) else blinkOn st)
             /\ buzzTone st' =
               (if 200 <=? elapsed (buzzLastToggle st) (msBuzz inp)
                then (if negb (beepOn st) then Some 1200 else None)
                else buzzTone st)
         | Normal => pinLED st' = baseLedOn st /\ buzzTone st' = None
         end)
  /\ clocked 0 boot
  /\ (forall T inp T' st,
         timed T inp T' -> clocked T st -> clocked T' (loop inp st))
  /\ (forall T inp T' inp' T'' st,
         clocked T st -> timed T inp T' -> timed T' inp' T'' ->
         levelOf st <> Warning -> levelOf (loop inp st) = Warning ->
         let st1 := loop inp st in
         pinLED (loop inp' st1) = negb (blinkOn st1)
         /\ buzzTone (loop inp' st1) =
            (if negb (beepOn st1) then Some 1200 else None))
  /\ (forall inps inp inp',
         chained 0 (inps ++ [inp; inp']) ->
         let st := run inps boot in
         let st1 := loop inp st in
         levelOf st <> Warning -> levelOf st1 = Warning ->
         pinLED (loop inp' st1) = negb (blinkOn st1)
         /\ buzzTone (loop inp' st1) =
            (if negb (beepOn st1) then Some 1200 else None)).
Proof.
  assert (P4 : forall inp st,
             let st' := loop inp st in
             match levelOf st with
             | Critical => pinLED st' = HIGH /\ buzzTone st' = Some 2000
             | Warning =>
                 pinLED st' =
                   (if 200 <=? elapsed (ledLastToggle st) (msLed inp)
                    then negb (blinkOn st) else blinkOn st)
                 /\ buzzTone st' =
                   (if 200 <=? elapsed (buzzLastToggle st) (msBuzz inp)
                    then (if negb (beepOn st) then Some 1200 else None)
                    else buzzTone st)
             | Normal => pinLED st' = baseLedOn st /\ buzzTone st' = None
             end).
  { intros inp st st'. subst st'.
    destruct (loop_outputs inp st) as (-> & ->).
    pose proof (ledAlarmUpdate_spec (warningState st) (criticalState st)
                  (baseLedOn st) (msLed inp) st) as L.
    pose proof (buzzerPassive_spec (warningState st) (criticalState st)
                  (msBuzz inp) st) as B.
    cbv zeta in L, B. unfold levelOf.
    destruct (alarmLevel (warningState st) (criticalState st)).
    + split; [apply L | apply B].
    + destruct L as (L1 & L2 & L3). rewrite L3, L1. split; [reflexivity|].
      destruct (200 <=? elapsed (buzzLastToggle st) (msBuzz inp)).
      * destruct B as (B1 & B2 & B3). now rewrite B3, B1.
      * now rewrite B.
    + split; [apply L | apply B]. }
  assert (P7 : forall T inp T' inp' T'' st,
             clocked T st -> timed T inp T' -> timed T' inp' T'' ->
             levelOf st <> Warning -> levelOf (loop inp st) = Warning ->
             let st1 := loop inp st in
             pinLED (loop inp' st1) = negb (blinkOn st1)
             /\ buzzTone (loop inp' st1) =
                (if negb (beepOn st1) then Some 1200 else None)).
  { intros T inp T' inp' T'' st C Ht Ht' N W st1.
    destruct (deescalation_flip_due T inp T' inp' T'' st C Ht Ht' N W) as (D1 & D2).
    fold st1 in D1, D2, W.
    pose proof (P4 inp' st1) as Q. cbv zeta in Q. rewrite W, D1, D2 in Q.
    exact Q. }
  repeat match goal with |- _ /\ _ => split end.
  - exact ledAlarmUpdate_spec.
  - exact buzzerPassive_spec.
  - intros w c base base' ms st H. unfold ledAlarmUpdate.
    destruct c, w; cbn in *; congruence.
  - exact P4.
  - exact boot_clocked.
  - exact loop_clocked.
  - exact P7.
  - intros inps inp inp' H st st1 N W.
    apply chained_app in H. destruct H as (H0 & H1 & H2 & _).
    apply (P7 (endTime 0 inps) inp (msDraw inp) inp' (msDraw inp') st);
      try assumption.
    exact (run_clocked inps 0 boot H0 boot_clocked).
Qed.

(** A run from power-up.  The level is Warning at 300 ms and the buzzer
    beeps at 600 ms; the evaluation of that pass finds Critical, which then
    lasts until the millisecond counter has wrapped (the passes in between,
    all under Critical, leave the buzzer's timer alone and are left out).
    The evaluation at 400 ms after the wrap finds Warning again.  On the
    passes that follow, at 651 ms and 799 ms, the level is Warning and the
    buzzer still sounds the 2000 Hz tone of Critical: 51 ms and 199 ms on
    the wrapped counter since the beep at 600 ms.  The tone ends with the
    flip at 800 ms. *)
Lemma critical_tone_outlasts_the_level :
  let idle t := mkSample HIGH t in
  let pass t temp :=
    mkLoopInputs [] (mkButtonInputs (idle t) (idle t) (idle t) t t t)
      t t t t t t 100 temp 50 (mkDateTime 12 0 0) t in
  let mild := 15%Q in
  let cold := 11%Q in
  let st0 := run [pass 300 mild; pass 600 cold; pass 900 cold;
                  pass 4294967196 cold] boot in
  let st1 := loop (pass 400 mild) st0 in
  let st2 := loop (pass 651 mild) st1 in
  let st3 := loop (pass 799 mild) st2 in
  let st4 := loop (pass 800 mild) st3 in
  buzzLastToggle st0 = 600
  /\ (levelOf st0 = Critical /\ buzzTone st0 = Some 2000)
  /\ (levelOf st1 = Warning /\ buzzTone st1 = Some 2000)
  /\ (levelOf st2 = Warning /\ buzzTone st2 = Some 2000)
  /\ (levelOf st3 = Warning /\ buzzTone st3 = Some 2000)
  /\ (levelOf st4 = Warning /\ buzzTone st4 = None).
Proof.
  cbv zeta. split; [|split; [|split; [|split; [|split]]]].
  - vm_compute. reflexivity.
  - split; vm_compute; reflexivity.
  - split; vm_compute; reflexivity.
  - split; vm_compute; reflexivity.
  - split; vm_compute; reflexivity.
  - split; vm_compute; reflexivity.
Qed.

(** ** Serial commands *)

Lemma execLine_unrecognized st :
  ~ In (trim (cmd st)) recognized -> execLine st = set_cmd "" st.
Proof.
  intros H. unfold execLine. cbn.
  repeat match goal with
         | |- context [String.eqb ?a ?b] =>
             destruct (String.eqb_spec a b) as [E|_];
             [exfalso; apply H; rewrite E; cbn; tauto|]
         end.
  reflexivity.
Qed.

Lemma set_cmd_empty st : cmd st = "" -> set_cmd "" st = st.
Proof. intros <-. apply set_cmd_same. Qed.

Lemma readChar_overflow c st :
  c <> NL -> c <> CR -> (20 <= String.length (cmd st))%nat ->
  readChar c st = set_cmd "" st.
Proof.
  intros H1 H2 L. unfold readChar.
  destruct (Ascii.eqb_spec c NL); [contradiction|].
  destruct (Ascii.eqb_spec c CR); [contradiction|]. cbn [negb].
  replace (cmd (set_cmd (cmd st ++ String c "") st)) with (cmd st ++ String c "")%string by now destruct st.
  destruct (Z.ltb_spec 20 (Z.of_nat (String.length (cmd st ++ String c "")))) as [G|G].
  - now destruct st.
  - rewrite String_length_append in G. cbn in G. lia.
Qed.

Lemma readChar_bounded c st :
  (String.length (cmd st) <= 20)%nat ->
  (String.length (cmd (readChar c st)) <= 20)%nat.
Proof.
  intros L. unfold readChar.
  destruct (Ascii.eqb c NL).
  - unfold execLine. destruct st; cbn. lia.
  - destruct (Ascii.eqb c CR); cbn [negb]; [assumption|].
    replace (cmd (set_cmd (cmd st ++ String c "") st)) with (cmd st ++ String c "")%string by now destruct st.
    destruct (Z.ltb_spec 20 (Z.of_nat (String.length (cmd st ++ String c "")))) as [G|G].
    + destruct st; cbn. lia.
    + destruct st; cbn in *. lia.
Qed.

Lemma readCmd_bounded rx :
  forall st, (String.length (cmd st) <= 20)%nat ->
             (String.length (cmd (readCmd rx st)) <= 20)%nat.
Proof.
  induction rx as [|c rx IH]; intros st L; cbn; [assumption|].
  now apply IH, readChar_bounded.
Qed.

Lemma readChar_buffer_only c st :
  c <> NL -> readChar c st = set_cmd (cmd (readChar c st)) st.
Proof.
  intros H. unfold readChar.
  destruct (Ascii.eqb_spec c NL); [contradiction|].
  destruct st; cbn. cases; reflexivity.
Qed.

Lemma readCmd_buffer_only l :
  forall st, ~ In NL l -> readCmd l st = set_cmd (cmd (readCmd l st)) st.
Proof.
  induction l as [|c l IH]; intros st H; cbn.
  - now rewrite set_cmd_same.
  - assert (Hl : ~ In NL l) by (intros G; apply H; now right).
    assert (Hc : c <> NL) by (intros ->; apply H; now left).
    pose proof (IH (readChar c st) Hl) as E1.
    pose proof (readChar_buffer_only c st Hc) as E2.
    set (x := cmd (readCmd l (readChar c st))) in *.
    rewrite E1, E2. reflexivity.
Qed.

Lemma payload_cons c l :
  payload (c :: l) = if Ascii.eqb c CR then payload l else String c (payload l).
Proof. unfold payload. cbn. now destruct (Ascii.eqb c CR). Qed.

(** Carriage returns alone change nothing. *)
Lemma readCmd_blank l :
  forall st, ~ In NL l -> payload l = "" -> readCmd l st = st.
Proof.
  induction l as [|c l IH]; intros st H P; cbn; [reflexivity|].
  rewrite payload_cons in P. unfold readChar.
  destruct (Ascii.eqb_spec c NL) as [->|_]; [exfalso; apply H; now left|].
  destruct (Ascii.eqb c CR); [|discriminate]. cbn.
  apply IH; [intros G; apply H; now right | assumption].
Qed.

(** The byte that makes the buffer 21 long empties it, and nothing else
    has changed by then. *)
Lemma readCmd_overflow l :
  forall st,
    ~ In NL l -> (String.length (cmd st) <= 20)%nat ->
    (String.length (cmd st) + String.length (payload l) = 21)%nat ->
    readCmd l st = set_cmd "" st.
Proof.
  induction l as [|c l IH]; intros st H B L.
  - unfold payload in L. cbn in L. lia.
  - assert (Hl : ~ In NL l) by (intros G; apply H; now right).
    assert (Hc : c <> NL) by (intros ->; apply H; now left).
    rewrite payload_cons in L. cbn [readCmd].
    destruct (Ascii.eqb_spec c CR) as [->|Hcr].
    + unfold readChar. cbn. now apply IH.
    + cbn [String.length] in L.
      destruct (Nat.eq_dec (String.length (cmd st)) 20) as [E|E].
      * rewrite readChar_overflow by (assumption || lia).
        apply readCmd_blank; [assumption|].
        destruct (payload l); [reflexivity|cbn in L; lia].
      * unfold readChar.
        destruct (Ascii.eqb_spec c NL); [contradiction|].
        destruct (Ascii.eqb_spec c CR); [contradiction|]. cbn [negb].
        replace (cmd (set_cmd (cmd st ++ String c "") st))
          with (cmd st ++ String c "")%string by now destruct st.
        destruct (Z.ltb_spec 20 (Z.of_nat (String.length (cmd st ++ String c "")))) as [G|G].
        { rewrite String_length_append in G. cbn in G. lia. }
        rewrite IH; try assumption.
        -- now destruct st.
        -- replace (cmd (set_cmd (cmd st ++ String c "") st))
             with (cmd st ++ String c "")%string by now destruct st.
           rewrite String_length_append. cbn. lia.
        -- replace (cmd (set_cmd (cmd st ++ String c "") st))
             with (cmd st ++ String c "")%string by now destruct st.
           rewrite String_length_append. cbn. lia.
Qed.

(** C9, as the code has it.  A newline on a buffer whose trimmed content is
    no recognised token only empties the buffer; so a complete line of at most
    20 buffered characters with an unrecognised token, received on an empty
    buffer, leaves the whole state as it was.  The byte that would make the
    buffer longer than 20 empties it instead and changes nothing else; the
    buffer never holds more than 20 characters; without a newline no setting
    changes.  The bytes of a line that follow its first 21 buffered characters
    are then read as if they started a line. *)
Theorem serial_unknown_and_overlong :
  (forall st, ~ In (trim (cmd st)) recognized -> execLine st = set_cmd "" st)
  /\ (forall l st,
         cmd st = "" -> ~ In NL l -> (String.length (payload l) <= 20)%nat ->
         ~ In (trim (payload l)) recognized ->
         readCmd (l ++ [NL]) st = st)
  /\ (forall c st,
         c <> NL -> c <> CR -> (20 <= String.length (cmd st))%nat ->
         readChar c st = set_cmd "" st)
  /\ (forall rx st,
         (String.length (cmd st) <= 20)%nat ->
         (String.length (cmd (readCmd rx st)) <= 20)%nat)
  /\ (forall l st, ~ In NL l -> settings (readCmd l st) = settings st)
  /\ (forall l rest st,
         cmd st = "" -> ~ In NL l -> String.length (payload l) = 21%nat ->
         readCmd (l ++ rest) st = readCmd rest st).
Proof.
  repeat match goal with |- _ /\ _ => split end.
  - exact execLine_unrecognized.
  - intros l st E Hnl Hlen Hu. rewrite readCmd_line by assumption.
    rewrite execLine_unrecognized.
    + transitivity (set_cmd "" st); [reflexivity | now apply set_cmd_empty].
    + now destruct st.
  - exact readChar_overflow.
  - intros rx st. apply readCmd_bounded.
  - intros l st H. rewrite (readCmd_buffer_only l st H). reflexivity.
  - intros l rest st E H L. rewrite readCmd_app, (readCmd_overflow l st); try assumption.
    + now rewrite set_cmd_empty.
    + rewrite E. cbn. lia.
    + rewrite E. cbn. lia.
Qed.

(** The line of 21 letters X followed by ML grows beyond the buffer length
    without a newline, and is acted upon all the same: its tail ML switches
    the freshly booted system to Manual. *)
Lemma overlong_line_tail_is_executed :
  let l := bytes "XXXXXXXXXXXXXXXXXXXXXML" in
  Forall (fun c => c <> NL) l
  /\ String.length (payload l) = 23%nat
  /\ cmd boot = ""
  /\ mode boot = AUTO
  /\ mode (readCmd (l ++ [NL]) boot) = MANUAL
  /\ settings (readCmd (l ++ [NL]) boot) <> settings boot.
Proof.
  cbv zeta. split; [|split; [|split; [|split; [|split]]]].
  - unfold bytes. cbn. repeat constructor; discriminate.
  - reflexivity.
  - reflexivity.
  - reflexivity.
  - vm_compute. reflexivity.
  - intros H. vm_compute in H. discriminate.
Qed.

(** ** Serial commands while the editor is active *)



(** A recognised token received on a line of its own, buffer empty. *)
Lemma readCmd_token tok st :
  cmd st = "" -> In tok recognized ->
  readCmd (line tok) st = execLine (set_cmd tok st).
Proof.
  intros E H. unfold line, bytes.
  assert (P : forall t, In t recognized ->
              ~ In NL (list_ascii_of_string t)
              /\ payload (list_ascii_of_string t) = t
              /\ (String.length t <= 20)%nat).
  { clear. intros t H. cbn in H.
    repeat (destruct H as [<-|H];
            [cbn; repeat split; try lia; unfold NL; intuition discriminate|]).
    contradiction. }
  destruct (P tok H) as (P1 & P2 & P3).
  rewrite readCmd_line; rewrite ?P2; auto.
Qed.

Lemma loop_window inp st :
  window (loop inp st) = window (handleButtons (buttons inp) (readCmd (rx inp) st)).
Proof.
  unfold loop.
  set (st2 := handleButtons (buttons inp) (readCmd (rx inp) st)).
  set (st3 := ledAlarmUpdate _ _ _ _ st2).
  set (st4 := buzzerPassive _ _ _ st3).
  assert (E : window st4 = window st2).
  { subst st4 st3.
    repeat match goal with
           | |- context [window (buzzerPassive ?w ?c ?ms ?s)] =>
               let H := fresh in
               destruct (buzzerPassive_frame w c ms s) as (_ & H & _); rewrite H; clear H
           | |- context [window (ledAlarmUpdate ?w ?c ?b ?ms ?s)] =>
               let H := fresh in
               destruct (ledAlarmUpdate_frame w c b ms s) as (_ & H & _); rewrite H; clear H
           end.
    reflexivity. }
  rewrite <- E. clearbody st4. clear.
  repeat case_if; cbn;
    try match goal with
        | |- context [senseTask inp ?s] =>
            let H := fresh in
            destruct (senseTask_frame inp s) as (_ & _ & _ & H & _); rewrite H
        end; reflexivity.
Qed.



(** ** Worked examples *)

(** A released button is pressed with two bounces: the press is reported
    once, at the first poll more than 35 ms after the level settled; the
    release, held long enough, is promoted silently. *)
Example bouncing_press :
  let released := mkButton BTN_NIGHT HIGH HIGH 0 in
  let trace := [ mkSample LOW 100; mkSample HIGH 110; mkSample LOW 120;
                 mkSample LOW 155; mkSample LOW 156; mkSample LOW 200;
                 mkSample HIGH 300; mkSample HIGH 336 ] in
  fst (poll_all released trace)
    = [false; false; false; false; true; false; false; false]
  /\ stable_levels released trace
    = [HIGH; HIGH; HIGH; HIGH; LOW; LOW; LOW; HIGH].
Proof. split; reflexivity. Qed.

(** The millisecond counter may wrap between the change and the promotion. *)
Example press_across_wrap :
  fst (poll_all (mkButton BTN_NIGHT HIGH HIGH 0)
         [ mkSample LOW (ULONG_MOD - 10); mkSample LOW 25; mkSample LOW 26 ])
  = [false; false; true].
Proof. reflexivity. Qed.

(** Three night presses: in, on to the end hour, and out with the draft
    committed; one hour taken off the start and one added to the end on the
    way. *)
Example editor_walk :
  let idle := mkSample HIGH 1000 in
  let down := mkSample LOW 1000 in
  let ready b := mkButton b HIGH LOW 0 in
  let st0 := boot |> set_bNight (ready BTN_NIGHT) in
  let st1 := handleButtons (mkButtonInputs down idle idle 1000 1000 1000) st0 in
  let st2 := handleButtons (mkButtonInputs idle down idle 1000 1000 1000)
               (st1 |> set_bMode (ready BTN_MODE)) in
  let st3 := handleButtons (mkButtonInputs down idle idle 1000 1000 1000)
               (st2 |> set_bNight (ready BTN_NIGHT)) in
  let st4 := handleButtons (mkButtonInputs idle idle down 1000 1000 1000)
               (st3 |> set_bTog (ready BTN_TOGGLE)) in
  let st5 := handleButtons (mkButtonInputs down idle idle 1000 1000 1000)
               (st4 |> set_bNight (ready BTN_NIGHT)) in
  editor st1 = (NIGHT_EDIT_START, 20, 6)
  /\ editor st2 = (NIGHT_EDIT_START, 19, 6)
  /\ editor st3 = (NIGHT_EDIT_END, 19, 6)
  /\ editor st4 = (NIGHT_EDIT_END, 19, 7)
  /\ window st4 = (20, 6)
  /\ nightEdit st5 = NIGHT_EDIT_OFF /\ window st5 = (19, 7)
  /\ mode st5 = AUTO.
Proof. repeat split; reflexivity. Qed.

(** The level is a joint one: a temperature warning is Critical as soon as
    the humidity is. *)
Example humidity_can_raise_the_level :
  levelOf (evaluate 15 10 boot) = Critical
  /\ levelOf (evaluate 20 70 boot) = Warning.
Proof. split; reflexivity. Qed.

(** Commands received in one go, with a carriage return before each newline;
    the unknown line in between does nothing. *)
Example serial_session :
  let st := readCmd (bytes "ML" ++ [CR; NL] ++ bytes "HELLO" ++ [CR; NL]
                       ++ bytes " LO " ++ [NL] ++ bytes "I5" ++ [NL]
                       ++ bytes "SND") boot in
  settings st = (MANUAL, true, 20, 6, 5000) /\ cmd st = "SND".
Proof. split; reflexivity. Qed.

(** Called outside the loop's timing, [buzzerPassive] under Warning leaves
    the buzzer as it finds it until the next flip is due. *)
Example buzzer_between_flips :
  let st1 := buzzerPassive true false 1000 boot in
  let st2 := buzzerPassive false true 1100 st1 in
  let st3 := buzzerPassive true false 1101 st2 in
  let st4 := buzzerPassive true false 1200 st3 in
  buzzTone st1 = Some 1200 /\ buzzTone st2 = Some 2000
  /\ buzzTone st3 = Some 2000 /\ buzzTone st4 = None.
Proof. repeat split; reflexivity. Qed.

(** * Properties of the further parts *)

(** ** Port initialisation *)

Lemma testbit_bit k n : 0 <= k -> 0 <= n -> Z.testbit (bit k) n = (n =? k).
Proof.
  intros Hk Hn. unfold bit. rewrite Z.shiftl_spec by assumption.
  destruct (Z.eqb_spec n k) as [->|N].
  - now rewrite Z.sub_diag.
  - destruct (Z.lt_ge_cases n k).
    + apply Z.testbit_neg_r. lia.
    + replace (n - k) with (Z.succ (n - k - 1)) by lia.
      apply Z.bits_above_log2; cbn; lia.
Qed.

Lemma testbit_uint8_t z n : 0 <= n < 8 -> Z.testbit (uint8_t z) n = Z.testbit z n.
Proof.
  intros H. unfold uint8_t. change 256 with (2 ^ 8).
  apply Z.mod_pow2_bits_low. lia.
Qed.

Lemma uint8_t_range z : 0 <= uint8_t z < 256.
Proof. unfold uint8_t. apply Z.mod_pos_bound. lia. Qed.

(** X1. [ioInitRegisters], bit by bit, for any bit numbers within a byte.
    In DDRD the three button bits end up cleared (inputs) and the LED bit
    set (output); in DDRB the buzzer bit is set; in PORTD the LED bit is
    cleared and the three pull-up bits are set; in PORTB the buzzer bit is
    cleared.  Every other bit of the four registers keeps the value it had,
    and the registers remain bytes. *)
Theorem ioInitRegisters_bits (k : IoBits) (p : Ports) (n : Z) :
  bits_ok k -> 0 <= n < 8 ->
  let p' := ioInitRegisters k p in
  Z.testbit (DDRD p') n =
    (if (n =? DDD2 k) || (n =? DDD3 k) || (n =? DDD5 k) then false
     else if n =? DDD4 k then true else Z.testbit (DDRD p) n)
  /\ Z.testbit (DDRB p') n =
    (if n =? DDB1 k then true else Z.testbit (DDRB p) n)
  /\ Z.testbit (PORTD p') n =
    (if n =? PORTD4 k then false
     else if (n =? PORTD2 k) || (n =? PORTD3 k) || (n =? PORTD5 k) then true
     else Z.testbit (PORTD p) n)
  /\ Z.testbit (PORTB p') n =
    (if n =? PORTB1 k then false else Z.testbit (PORTB p) n)
  /\ (0 <= DDRD p' < 256 /\ 0 <= DDRB p' < 256
      /\ 0 <= PORTD p' < 256 /\ 0 <= PORTB p' < 256).
Proof.
  intros K Hn p'. subst p'. unfold bits_ok in K.
  repeat match goal with
         | H : Forall _ (_ :: _) |- _ => inversion H; subst; clear H
         end.
  unfold ioInitRegisters. cbn [DDRD DDRB PORTD PORTB].
  repeat split; try apply uint8_t_range;
    rewrite ?testbit_uint8_t, ?Z.land_spec, ?Z.lor_spec, ?Z.lnot_spec,
      ?testbit_uint8_t, ?Z.lor_spec, ?testbit_bit by lia;
    repeat match goal with
           | |- context [n =? ?x] => destruct (n =? x)
           end; cbn; rewrite ?orb_true_r, ?andb_true_r, ?andb_false_r, ?orb_false_r;
    reflexivity.
Qed.

Lemma ioInitRegisters_bits_witness :
  let p' := ioInitRegisters atmega328p (mkPorts 255 0 16 255) in
  (bits_ok atmega328p /\ 0 <= 4 < 8)
  /\ Z.testbit (DDRD p') 4 = true /\ Z.testbit (PORTD p') 4 = false.
Proof.
  split.
  - split; [repeat constructor; cbn; lia | lia].
  - pose proof (ioInitRegisters_bits atmega328p (mkPorts 255 0 16 255) 4) as H.
    cbv zeta in H.
    destruct H as (H1 & _ & H3 & _).
    + repeat constructor; cbn; lia.
    + lia.
    + split; [exact H1 | exact H3].
Defined.

(** ** Sensor scaling *)

Lemma Qltb_false_le x y : Qltb x y = false -> (y <= x)%Q.
Proof.
  unfold Qltb. rewrite negb_false_iff. apply Qle_bool_iff.
Qed.

(** X2. [clampf] with [lo <= hi]: the result lies in [lo, hi]; a value
    already inside is returned as it is; clamping twice is clamping once.
    Hence [adcToTemp] yields a temperature in [-40, 125] and [adcToHum] a
    humidity in [0, 100], whatever [mapFloat] computed. *)
Theorem clampf_within (v lo hi : Q) :
  (lo <= hi)%Q ->
  (lo <= clampf v lo hi <= hi)%Q
  /\ ((lo <= v <= hi)%Q -> clampf v lo hi = v)
  /\ clampf (clampf v lo hi) lo hi = clampf v lo hi
  /\ (forall mapFloat adc,
         (-40 <= adcToTemp mapFloat adc <= 125)%Q
         /\ (0 <= adcToHum mapFloat adc <= 100)%Q).
Proof.
  assert (B : forall v lo hi, (lo <= hi)%Q -> (lo <= clampf v lo hi <= hi)%Q).
  { clear. intros v lo hi H. unfold clampf.
    destruct (Qltb v lo) eqn:E1; [split; [apply Qle_refl | exact H]|].
    destruct (Qltb hi v) eqn:E2; [split; [exact H | apply Qle_refl]|].
    split; now apply Qltb_false_le. }
  assert (I : forall v lo hi, (lo <= v <= hi)%Q -> clampf v lo hi = v).
  { clear. intros v lo hi (H1 & H2). unfold clampf.
    destruct (Qltb v lo) eqn:E1.
    - apply Qltb_lt in E1. exfalso. now apply (Qlt_not_le v lo).
    - destruct (Qltb hi v) eqn:E2; [|reflexivity].
      apply Qltb_lt in E2. exfalso. now apply (Qlt_not_le hi v). }
  intros H. repeat split.
  - now apply B.
  - now apply B.
  - apply I.
  - apply I. now apply B.
  - apply B. discriminate.
  - apply B. discriminate.
  - apply B. discriminate.
  - apply B. discriminate.
Qed.

Lemma clampf_within_witness :
  (0 <= 100)%Q /\ (0 <= clampf 250 0 100 <= 100)%Q.
Proof.
  split; [discriminate|].
  apply (clampf_within 250 0 100). discriminate.
Defined.

(** ** The night window over a day *)

Lemma isEvening_swap h start stop :
  start <> stop -> isEvening h stop start = negb (isEvening h start stop).
Proof.
  intros N. unfold isEvening.
  destruct (Z.ltb_spec start stop), (Z.ltb_spec stop start); try lia;
    destruct (Z.leb_spec start h), (Z.ltb_spec h stop),
      (Z.leb_spec stop h), (Z.ltb_spec h start); cbn; try reflexivity; lia.
Qed.

Lemma nightHours_length_small :
  forallb (fun s =>
    forallb (fun e =>
      Z.of_nat (List.length (nightHours s e))
        =? (if s =? e then 24 else (e - s) mod 24)) day) day = true.
Proof. vm_compute. reflexivity. Qed.

Lemma In_day h : In h day <-> 0 <= h <= 23.
Proof.
  unfold day. rewrite in_map_iff. split.
  - intros (n & <- & H). apply in_seq in H. lia.
  - intros H. exists (Z.to_nat h). split; [lia|]. apply in_seq. lia.
Qed.

(** X3. Shape of the night window for hours of the day.  When start and end
    coincide the window is the whole day; exchanging two different bounds
    gives the complementary window; and the window holds
    [(end - start) mod 24] hours of the day (24 when the bounds coincide). *)
Theorem night_window_shape (start stop : Z) :
  0 <= start <= 23 -> 0 <= stop <= 23 ->
  (forall h, isEvening h start start = true)
  /\ (forall h, start <> stop ->
                isEvening h stop start = negb (isEvening h start stop))
  /\ Z.of_nat (List.length (nightHours start stop))
     = (if start =? stop then 24 else (stop - start) mod 24).
Proof.
  intros Hs He. repeat split.
  - intros h. unfold isEvening. rewrite Z.ltb_irrefl.
    destruct (Z.leb_spec start h), (Z.ltb_spec h start); cbn; try reflexivity; lia.
  - intros h. apply isEvening_swap.
  - pose proof nightHours_length_small as A.
    rewrite forallb_forall in A. apply In_day in Hs. apply In_day in He.
    specialize (A start Hs). rewrite forallb_forall in A.
    specialize (A stop He). now apply Z.eqb_eq in A.
Qed.

Lemma night_window_shape_witness :
  (0 <= 20 <= 23 /\ 0 <= 6 <= 23)
  /\ Z.of_nat (List.length (nightHours 20 6)) = 10.
Proof.
  split; [lia|].
  apply (night_window_shape 20 6); lia.
Defined.

(** ** Hour commands *)

Lemma wrapHour_succ_pred h :
  0 <= h <= 23 -> wrapHour (int8_t (wrapHour (int8_t h + 1)) - 1) = h.
Proof.
  intros H. rewrite wrapHour_succ by assumption.
  rewrite wrapHour_pred by (pose proof (Z.mod_pos_bound (h + 1) 24); lia).
  destruct (Z.eq_dec h 23) as [->|N]; [reflexivity|].
  rewrite (Z.mod_small (h + 1)) by lia. rewrite Z.mod_small; lia.
Qed.

Lemma wrapHour_pred_succ h :
  0 <= h <= 23 -> wrapHour (int8_t (wrapHour (int8_t h - 1)) + 1) = h.
Proof.
  intros H. rewrite wrapHour_pred by assumption.
  rewrite wrapHour_succ by (pose proof (Z.mod_pos_bound (h - 1) 24); lia).
  destruct (Z.eq_dec h 0) as [->|N]; [reflexivity|].
  rewrite (Z.mod_small (h - 1)) by lia. rewrite Z.mod_small; lia.
Qed.

Lemma readCmd_two_tokens t1 t2 st :
  cmd st = "" -> In t1 recognized -> In t2 recognized ->
  readCmd (line t1 ++ line t2) st =
  execLine (set_cmd t2 (execLine (set_cmd t1 st))).
Proof.
  intros E H1 H2. rewrite readCmd_app, (readCmd_token t1) by assumption.
  rewrite (readCmd_token t2); [reflexivity| |assumption].
  unfold execLine. now destruct st.
Qed.

Lemma set_eveningStart_same st : set_eveningStart (eveningStart st) st = st.
Proof. now destruct st. Qed.

Lemma set_nightEnd_same st : set_nightEnd (nightEnd st) st = st.
Proof. now destruct st. Qed.

Lemma start_commands st :
  cmd st = "" ->
  execLine (set_cmd "SNI" st)
    = set_eveningStart (wrapHour (int8_t (eveningStart st) + 1)) st
  /\ execLine (set_cmd "SND" st)
    = set_eveningStart (wrapHour (int8_t (eveningStart st) - 1)) st
  /\ execLine (set_cmd "SI" st)
    = set_nightEnd (wrapHour (int8_t (nightEnd st) + 1)) st
  /\ execLine (set_cmd "SD" st)
    = set_nightEnd (wrapHour (int8_t (nightEnd st) - 1)) st.
Proof.
  intros E. unfold execLine. destruct st; cbn in *. subst. repeat split.
Qed.

(** X4. The hour commands undo each other.  On a state whose hours are hours
    of the day, received on an empty buffer, SNI followed by SND (or the
    reverse) and SI followed by SD (or the reverse) give back the very state
    they started from, also across midnight; likewise the + and - actions of
    the editor restore the hour being edited. *)
Theorem hour_commands_round_trip (st : State) :
  cmd st = "" -> hours_ok st ->
  readCmd (line "SNI" ++ line "SND") st = st
  /\ readCmd (line "SND" ++ line "SNI") st = st
  /\ readCmd (line "SI" ++ line "SD") st = st
  /\ readCmd (line "SD" ++ line "SI") st = st
  /\ (forall ms ms',
         edited (editMinus ms' (editPlus ms st)) = edited st
         /\ edited (editPlus ms' (editMinus ms st)) = edited st).
Proof.
  intros E (H1 & H2 & H3 & H4).
  assert (R : forall t, In t ["SNI"; "SND"; "SI"; "SD"] -> In t recognized).
  { intros t. cbn. intuition. }
  assert (C : forall v, cmd (set_eveningStart v st) = ""
                        /\ cmd (set_nightEnd v st) = "").
  { intros v. now destruct st. }
  repeat split.
  - rewrite readCmd_two_tokens by (assumption || (apply R; cbn; tauto)).
    destruct (start_commands st E) as (-> & _).
    destruct (start_commands (set_eveningStart (wrapHour (int8_t (eveningStart st) + 1)) st))
      as (_ & -> & _); [apply C|].
    replace (eveningStart (set_eveningStart (wrapHour (int8_t (eveningStart st) + 1)) st))
      with (wrapHour (int8_t (eveningStart st) + 1)) by now destruct st.
    rewrite wrapHour_succ_pred by assumption. now destruct st.
  - rewrite readCmd_two_tokens by (assumption || (apply R; cbn; tauto)).
    destruct (start_commands st E) as (_ & -> & _).
    destruct (start_commands (set_eveningStart (wrapHour (int8_t (eveningStart st) - 1)) st))
      as (-> & _); [apply C|].
    replace (eveningStart (set_eveningStart (wrapHour (int8_t (eveningStart st) - 1)) st))
      with (wrapHour (int8_t (eveningStart st) - 1)) by now destruct st.
    rewrite wrapHour_pred_succ by assumption. now destruct st.
  - rewrite readCmd_two_tokens by (assumption || (apply R; cbn; tauto)).
    destruct (start_commands st E) as (_ & _ & -> & _).
    destruct (start_commands (set_nightEnd (wrapHour (int8_t (nightEnd st) + 1)) st))
      as (_ & _ & _ & ->); [apply C|].
    replace (nightEnd (set_nightEnd (wrapHour (int8_t (nightEnd st) + 1)) st))
      with (wrapHour (int8_t (nightEnd st) + 1)) by now destruct st.
    rewrite wrapHour_succ_pred by assumption. now destruct st.
  - rewrite readCmd_two_tokens by (assumption || (apply R; cbn; tauto)).
    destruct (start_commands st E) as (_ & _ & _ & ->).
    destruct (start_commands (set_nightEnd (wrapHour (int8_t (nightEnd st) - 1)) st))
      as (_ & _ & -> & _); [apply C|].
    replace (nightEnd (set_nightEnd (wrapHour (int8_t (nightEnd st) - 1)) st))
      with (wrapHour (int8_t (nightEnd st) - 1)) by now destruct st.
    rewrite wrapHour_pred_succ by assumption. now destruct st.
  - destruct (editMinus_spec ms' (editPlus ms st)) as (-> & _).
    destruct (editPlus_spec ms st) as (-> & _).
    apply wrapHour_succ_pred. unfold edited. now destruct (NightEditState_eqb _ _).
  - destruct (editPlus_spec ms' (editMinus ms st)) as (-> & _).
    destruct (editMinus_spec ms st) as (-> & _).
    apply wrapHour_pred_succ. unfold edited. now destruct (NightEditState_eqb _ _).
Qed.

Lemma hour_commands_round_trip_witness :
  (cmd boot = "" /\ hours_ok boot)
  /\ readCmd (line "SNI" ++ line "SND") boot = boot.
Proof.
  split.
  - split; [reflexivity | exact boot_hours].
  - apply (hour_commands_round_trip boot); [reflexivity | exact boot_hours].
Defined.

(** ** Lines as they arrive *)

Lemma readCmd_drop_CR rx :
  forall st,
    readCmd rx st = readCmd (filter (fun c => negb (Ascii.eqb c CR)) rx) st.
Proof.
  induction rx as [|c rx IH]; intros st; [reflexivity|].
  cbn [readCmd filter].
  destruct (Ascii.eqb_spec c CR) as [->|N]; cbn [negb].
  - unfold readChar. cbn. apply IH.
  - cbn [readCmd]. apply IH.
Qed.

Lemma execLine_trim p1 p2 st :
  trim p1 = trim p2 -> execLine (set_cmd p1 st) = execLine (set_cmd p2 st).
Proof.
  intros H. unfold execLine. destruct st; cbn -[trim]. rewrite H. reflexivity.
Qed.

Lemma ltrim_spaces s1 s2 :
  forallb isspace (bytes s1) = true -> ltrim (s1 ++ s2)%string = ltrim s2.
Proof.
  induction s1 as [|c s1 IH]; cbn; [reflexivity|].
  intros H. apply andb_true_iff in H as (-> & H). now apply IH.
Qed.

Lemma rtrim_all_spaces s : forallb isspace (bytes s) = true -> rtrim s = "".
Proof.
  induction s as [|c s IH]; cbn; [reflexivity|].
  intros H. apply andb_true_iff in H as (-> & H). now rewrite IH.
Qed.

Lemma rtrim_spaces s1 s2 :
  forallb isspace (bytes s2) = true -> rtrim (s1 ++ s2)%string = rtrim s1.
Proof.
  intros H. induction s1 as [|c s1 IH]; cbn.
  - now apply rtrim_all_spaces.
  - now rewrite IH.
Qed.

Lemma blank_spaces s : blank s = true -> forallb isspace (bytes s) = true.
Proof.
  unfold blank. induction (bytes s) as [|c l IH]; cbn; [reflexivity|].
  intros H. apply andb_true_iff in H as (H1 & H2).
  apply andb_true_iff in H1 as (-> & _). now apply IH.
Qed.

Lemma blank_no_NL s : blank s = true -> ~ In NL (bytes s).
Proof.
  unfold blank. induction (bytes s) as [|c l IH]; cbn; [tauto|].
  intros H. apply andb_true_iff in H as (H1 & H2).
  apply andb_true_iff in H1 as (_ & H1). apply negb_true_iff in H1.
  intros [->|G]; [|now apply IH].
  now rewrite Ascii.eqb_refl in H1.
Qed.

Lemma bytes_app a b : bytes (a ++ b)%string = bytes a ++ bytes b.
Proof. unfold bytes. induction a; cbn; congruence. Qed.

Lemma payload_app l1 l2 : payload (l1 ++ l2) = (payload l1 ++ payload l2)%string.
Proof.
  unfold payload. rewrite filter_app.
  induction (filter _ l1); cbn; congruence.
Qed.

Lemma payload_length l : (String.length (payload l) <= List.length l)%nat.
Proof.
  unfold payload. induction l as [|c l IH]; cbn; [lia|].
  destruct (negb (Ascii.eqb c CR)); cbn; lia.
Qed.

Lemma bytes_length s : List.length (bytes s) = String.length s.
Proof. unfold bytes. induction s; cbn; congruence. Qed.

Lemma payload_spaces l :
  forallb isspace l = true -> forallb isspace (bytes (payload l)) = true.
Proof.
  unfold payload, bytes. induction l as [|c l IH]; cbn; [reflexivity|].
  intros H. apply andb_true_iff in H as (H1 & H2).
  destruct (negb (Ascii.eqb c CR)); cbn; [rewrite H1|]; now apply IH.
Qed.

(** A recognised token has no white space at either end, no carriage
    return and no newline. *)
Lemma token_shape tok :
  In tok recognized ->
  (forall s, ltrim (tok ++ s)%string = (tok ++ s)%string)
  /\ rtrim tok = tok /\ payload (bytes tok) = tok /\ ~ In NL (bytes tok).
Proof.
  intros H. cbn in H.
  repeat (destruct H as [<-|H];
          [repeat split; try reflexivity; cbn; unfold NL; intuition discriminate|]).
  contradiction.
Qed.

(** X5. Framing of the serial input.  Carriage returns are ignored wherever
    they occur; input split over several calls of [readCmd] acts as the same
    input in one call; two lines with the same trimmed content act alike; so
    a recognised token surrounded by white space (carriage returns included)
    acts as the bare token, as long as the line fits the buffer. *)
Theorem serial_line_framing :
  (forall rx st,
      readCmd rx st = readCmd (filter (fun c => negb (Ascii.eqb c CR)) rx) st)
  /\ (forall part1 part2 st,
         readCmd (part1 ++ part2) st = readCmd part2 (readCmd part1 st))
  /\ (forall l1 l2 st,
         cmd st = "" -> ~ In NL l1 -> ~ In NL l2 ->
         (String.length (payload l1) <= 20)%nat ->
         (String.length (payload l2) <= 20)%nat ->
         trim (payload l1) = trim (payload l2) ->
         readCmd (l1 ++ [NL]) st = readCmd (l2 ++ [NL]) st)
  /\ (forall tok ws1 ws2 st,
         In tok recognized -> cmd st = "" ->
         blank ws1 = true -> blank ws2 = true ->
         (String.length (ws1 ++ tok ++ ws2) <= 20)%nat ->
         readCmd (line (ws1 ++ tok ++ ws2)) st = readCmd (line tok) st).
Proof.
  assert (Same : forall l1 l2 st,
             cmd st = "" -> ~ In NL l1 -> ~ In NL l2 ->
             (String.length (payload l1) <= 20)%nat ->
             (String.length (payload l2) <= 20)%nat ->
             trim (payload l1) = trim (payload l2) ->
             readCmd (l1 ++ [NL]) st = readCmd (l2 ++ [NL]) st).
  { intros l1 l2 st E N1 N2 L1 L2 T.
    rewrite !readCmd_line by assumption. now apply execLine_trim. }
  repeat match goal with |- _ /\ _ => split end.
  - exact readCmd_drop_CR.
  - exact readCmd_app.
  - exact Same.
  - intros tok ws1 ws2 st Ht E B1 B2 L.
    destruct (token_shape tok Ht) as (T1 & T2 & T3 & T4).
    unfold line. apply Same; try assumption.
    + rewrite !bytes_app, !in_app_iff.
      intros [G|[G|G]]; [now apply (blank_no_NL ws1) | contradiction
                        | now apply (blank_no_NL ws2)].
    + etransitivity; [apply payload_length|]. now rewrite bytes_length.
    + etransitivity; [apply payload_length|]. rewrite bytes_length.
      rewrite !String_length_append in L. lia.
    + rewrite !bytes_app, !payload_app, T3. unfold trim.
      rewrite ltrim_spaces by now apply payload_spaces, blank_spaces.
      rewrite T1, rtrim_spaces by now apply payload_spaces, blank_spaces.
      rewrite T2. symmetry.
      specialize (T1 ""). rewrite String_append_nil_r in T1. now rewrite T1.
Qed.

(** ** The report interval *)

Lemma execLine_interval st : interval_ok st -> interval_ok (execLine st).
Proof.
  unfold interval_ok, execLine. destruct st; cbn. intros H.
  cases; cbn; tauto.
Qed.

Lemma readCmd_interval rx : forall st, interval_ok st -> interval_ok (readCmd rx st).
Proof.
  induction rx as [|c rx IH]; intros st H; cbn; [assumption|].
  apply IH. unfold readChar. case_if; [now apply execLine_interval|].
  unfold interval_ok in *. destruct st; cbn in *. cases; assumption.
Qed.

Lemma handleButtons_intervalMs inp st :
  intervalMs (handleButtons inp st) = intervalMs st.
Proof.
  unfold handleButtons.
  destruct (nightBlock_frame inp st) as (_ & _ & _ & _ & <- & _).
  case_if.
  - destruct (editBlock_frame inp (nightBlock inp st)) as (_ & S & _).
    unfold settings in S. now inversion S.
  - apply normalBlock_frame.
Qed.

Lemma loop_intervalMs inp st :
  intervalMs (loop inp st) = intervalMs (readCmd (rx inp) st).
Proof.
  rewrite <- (handleButtons_intervalMs (buttons inp) (readCmd (rx inp) st)).
  unfold loop.
  set (st2 := handleButtons (buttons inp) (readCmd (rx inp) st)).
  set (st3 := ledAlarmUpdate _ _ _ _ st2).
  set (st4 := buzzerPassive _ _ _ st3).
  assert (E : settings st4 = settings st2).
  { subst st4 st3.
    repeat match goal with
           | |- context [settings (buzzerPassive ?w ?c ?ms ?s)] =>
               let H := fresh in
               destruct (buzzerPassive_frame w c ms s) as (_ & _ & H & _);
               rewrite H; clear H
           | |- context [settings (ledAlarmUpdate ?w ?c ?b ?ms ?s)] =>
               let H := fresh in
               destruct (ledAlarmUpdate_frame w c b ms s) as (_ & _ & H);
               rewrite H; clear H
           end.
    reflexivity. }
  assert (E' : intervalMs st4 = intervalMs st2)
    by (unfold settings in E; now inversion E).
  rewrite <- E'. clearbody st4. clear.
  assert (S : forall s, intervalMs (senseTask inp s) = intervalMs s).
  { intros s. destruct (senseTask_frame inp s) as (_ & _ & _ & _ & H & _).
    unfold settings in H. now inversion H. }
  repeat case_if; rewrite ?S; reflexivity.
Qed.

(** X6. Along every run from power-up the report interval is one of 1000,
    2500, 5000 and 10000 ms. *)
Theorem report_interval_values (inps : list LoopInputs) :
  In (intervalMs (run inps boot)) [1000; 2500; 5000; 10000].
Proof.
  change (interval_ok (run inps boot)).
  assert (G : forall st, interval_ok st -> interval_ok (run inps st)).
  { induction inps as [|i inps IH]; intros st H; cbn; [assumption|].
    apply IH. unfold interval_ok. rewrite loop_intervalMs.
    now apply readCmd_interval. }
  apply G. unfold interval_ok. cbn. tauto.
Qed.

(** ** Buttons along a run of the loop *)

Lemma handleButtons_pads inp st :
  pads (handleButtons inp st) =
  (snd (poll (bMode st) (inMode inp)),
   snd (poll (bNight st) (inNight inp)),
   snd (poll (bTog st) (inTog inp))).
Proof.
  unfold handleButtons, nightBlock, editBlock, normalBlock, pressNight,
    editMinus, editPlus, pressMode, pressTog, pads.
  destruct st; cbn. case_polls; case_enums; case_polls; reflexivity.
Qed.

Lemma signals_pads w c base ms ms' st :
  pads (buzzerPassive w c ms' (ledAlarmUpdate w c base ms st)) = pads st.
Proof.
  unfold buzzerPassive, ledAlarmUpdate, pads. destruct st; cbn.
  destruct c, w; cbn; cases; reflexivity.
Qed.

Lemma updateLogic_pads st : pads (updateLogic st) = pads st.
Proof. unfold updateLogic, pads. destruct st; cbn. cases; reflexivity. Qed.

Lemma drawOLED_pads ms st : pads (drawOLED ms st) = pads st.
Proof. unfold drawOLED, pads. destruct st; cbn. cases; reflexivity. Qed.

Lemma senseTask_pads inp st : pads (senseTask inp st) = pads st.
Proof. unfold senseTask. now rewrite drawOLED_pads, updateLogic_pads. Qed.

Lemma ledAlarmUpdate_flags w c base ms st :
  warningState (ledAlarmUpdate w c base ms st) = warningState st
  /\ criticalState (ledAlarmUpdate w c base ms st) = criticalState st.
Proof.
  unfold ledAlarmUpdate. destruct st; cbn. destruct c, w; cbn; cases; split; reflexivity.
Qed.

Lemma loop_pads inp st :
  pads (loop inp st) =
  (snd (poll (bMode st) (inMode (buttons inp))),
   snd (poll (bNight st) (inNight (buttons inp))),
   snd (poll (bTog st) (inTog (buttons inp)))).
Proof.
  destruct (readCmd_frame (rx inp) st) as (_ & P & _).
  unfold pads in P. injection P as P1 P2 P3.
  rewrite <- P1, <- P2, <- P3, <- handleButtons_pads.
  unfold loop.
  set (st2 := handleButtons (buttons inp) (readCmd (rx inp) st)).
  set (st3 := ledAlarmUpdate _ _ _ _ st2).
  assert (E : pads (buzzerPassive (warningState st3) (criticalState st3) (msBuzz inp) st3)
              = pads st2).
  { subst st3.
    destruct (ledAlarmUpdate_flags (warningState st2) (criticalState st2)
                (baseLedOn st2) (msLed inp) st2) as (-> & ->).
    apply signals_pads. }
  rewrite <- E.
  set (st4 := buzzerPassive _ _ _ st3). clearbody st4. clear.
  repeat case_if; rewrite ?senseTask_pads; reflexivity.
Qed.

Lemma after_cons b s tr : after b (s :: tr) = after (snd (poll b s)) tr.
Proof.
  unfold after. cbn. destruct (poll b s) as [ev b1]. cbn.
  now destruct (poll_all b1 tr).
Qed.

Lemma run_pads inps :
  forall st,
    bMode (run inps st) = after (bMode st) (modeSamples inps)
    /\ bNight (run inps st) = after (bNight st) (nightSamples inps)
    /\ bTog (run inps st) = after (bTog st) (togSamples inps).
Proof.
  induction inps as [|i inps IH]; intros st; [now cbn|].
  cbn [run modeSamples nightSamples togSamples map].
  rewrite !after_cons.
  destruct (IH (loop i st)) as (-> & -> & ->).
  pose proof (loop_pads i st) as P. unfold pads in P. injection P as -> -> ->.
  repeat split.
Qed.

Lemma nightPresses_events inps :
  forall st,
    nightPresses inps st = presses (fst (poll_all (bNight st) (nightSamples inps))).
Proof.
  induction inps as [|i inps IH]; intros st; [reflexivity|].
  cbn [nightPresses nightSamples map poll_all]. rewrite IH.
  pose proof (loop_pads i st) as P. unfold pads in P. injection P as _ -> _.
  unfold nightPressed, nightSamples.
  destruct (poll (bNight st) (inNight (buttons i))) as [ev b1]. cbn [fst snd].
  destruct (poll_all b1 _) as [evs b2]. cbn [fst].
  unfold presses. cbn [filter]. destruct ev; reflexivity.
Qed.

Lemma run_nightEdit_events inps :
  forall st,
    nightEdit (run inps st) =
    Nat.iter (presses (fst (poll_all (bNight st) (nightSamples inps))))
             advance (nightEdit st).
Proof.
  intros st. rewrite <- nightPresses_events. revert st.
  induction inps as [|i inps IH]; intros st; [reflexivity|].
  cbn [run nightPresses]. rewrite IH, loop_nightEdit.
  destruct (nightPressed (buttons i) st); cbn [Nat.add]; [|reflexivity].
  now rewrite Nat.iter_succ_r.
Qed.

(** X7. Every button is polled exactly once by every call of
    [handleButtons], whatever the editor state and whichever events fire, and
    nothing else in the loop touches a button.  So along a run each button is
    the debounce filter applied to its own samples, and the editor state is
    the initial one advanced once per press that filter reports on the night
    button's samples. *)
Theorem buttons_polled_every_pass :
  (forall inp st,
      pads (handleButtons inp st) =
      (snd (poll (bMode st) (inMode inp)),
       snd (poll (bNight st) (inNight inp)),
       snd (poll (bTog st) (inTog inp))))
  /\ (forall inps st,
         bMode (run inps st) = after (bMode st) (modeSamples inps)
         /\ bNight (run inps st) = after (bNight st) (nightSamples inps)
         /\ bTog (run inps st) = after (bTog st) (togSamples inps))
  /\ (forall inps st,
         nightEdit (run inps st) =
         Nat.iter (presses (fst (poll_all (bNight st) (nightSamples inps))))
                  advance (nightEdit st)).
Proof.
  repeat match goal with |- _ /\ _ => split end.
  - exact handleButtons_pads.
  - intros. apply run_pads.
  - intros. apply run_nightEdit_events.
Qed.

(** ** Presses need an edge *)

Lemma poll_all_length b tr : List.length (fst (poll_all b tr)) = List.length tr.
Proof.
  revert b. induction tr as [|s tr IH]; intros b; [reflexivity|].
  cbn. destruct (poll b s) as [ev b1]. specialize (IH b1).
  destruct (poll_all b1 tr). cbn in *. now rewrite IH.
Qed.

Lemma quiet_while_released tr :
  forall b, Forall (fun s => level s = HIGH) tr ->
            fst (poll_all b tr) = repeat false (List.length tr).
Proof.
  induction tr as [|s tr IH]; intros b H; [reflexivity|].
  inversion H as [|? ? Hs Ht]; subst. cbn.
  assert (E : fst (poll b s) = false).
  { unfold poll. rewrite checkPress_event, Hs. apply andb_false_r. }
  destruct (poll b s) as [ev b1]. cbn in E. subst ev.
  specialize (IH b1 Ht). destruct (poll_all b1 tr). cbn in *. now rewrite IH.
Qed.

Lemma quiet_while_held tr :
  forall b, stableState b = LOW -> Forall (fun s => level s = LOW) tr ->
            fst (poll_all b tr) = repeat false (List.length tr)
            /\ stableState (after b tr) = LOW.
Proof.
  induction tr as [|s tr IH]; intros b Hb H; [now cbn|].
  inversion H as [|? ? Hs Ht]; subst. unfold after. cbn.
  assert (E : fst (poll b s) = false /\ stableState (snd (poll b s)) = LOW).
  { unfold poll. rewrite checkPress_event, checkPress_stableState, Hb, Hs.
    split; [now rewrite andb_false_r | now destruct (_ <? _)]. }
  destruct (poll b s) as [ev b1]. cbn in E. destruct E as (-> & E).
  specialize (IH b1 E Ht). unfold after in IH.
  destruct (poll_all b1 tr). cbn in *. destruct IH as (-> & ->). now split.
Qed.

(** X8. No press without an edge.  A button that is only ever read HIGH
    reports nothing, whatever its state; a button whose stable level is LOW
    (as at power-up) and that is only ever read LOW reports nothing and stays
    LOW.  Hence, from power-up, the editor stays off as long as the night pin
    keeps one level. *)
Theorem no_press_without_an_edge :
  (forall b tr,
      Forall (fun s => level s = HIGH) tr ->
      fst (poll_all b tr) = repeat false (List.length tr))
  /\ (forall b tr,
         stableState b = LOW -> Forall (fun s => level s = LOW) tr ->
         fst (poll_all b tr) = repeat false (List.length tr)
         /\ stableState (after b tr) = LOW)
  /\ (forall inps lvl,
         Forall (fun s => level s = lvl) (nightSamples inps) ->
         nightEdit (run inps boot) = NIGHT_EDIT_OFF).
Proof.
  repeat match goal with |- _ /\ _ => split end.
  - intros. now apply quiet_while_released.
  - intros. now apply quiet_while_held.
  - intros inps lvl H.
    rewrite run_nightEdit_events.
    assert (E : fst (poll_all (bNight boot) (nightSamples inps))
                = repeat false (List.length (nightSamples inps))).
    { destruct lvl.
      - now apply quiet_while_released.
      - now apply quiet_while_held. }
    rewrite E.
    assert (Z0 : forall n, presses (repeat false n) = O)
      by (induction n; [reflexivity | assumption]).
    now rewrite Z0.
Qed.

(** ** Spacing of presses *)

Lemma elapsed_in_order c ms :
  0 <= c <= ms -> ms < ULONG_MOD -> elapsed c ms = ms - c.
Proof. intros H L. unfold elapsed, ulong. apply Z.mod_small. lia. Qed.

Ltac use_facts :=
  repeat match goal with
         | H : ?x = ?x -> _ |- _ => specialize (H eq_refl)
         | H : true = false -> _ |- _ => clear H
         | H : false = true -> _ |- _ => clear H
         end.

Ltac settle :=
  repeat split; intros; try discriminate; try congruence; try lia.

Lemma since_press_step t1 b T s :
  t1 <= T -> 0 <= lastChangeMs b <= T -> T <= at_ms s < ULONG_MOD ->
  since_press t1 b T ->
  let b' := snd (poll b s) in
  since_press t1 b' (at_ms s)
  /\ 0 <= lastChangeMs b' <= at_ms s
  /\ (fst (poll b s) = true -> t1 + 70 < at_ms s).
Proof.
  intros Ht Hc Hs P b'. subst b'. unfold since_press, poll in *.
  rewrite checkPress_event, checkPress_stableState,
    checkPress_lastReading, checkPress_lastChangeMs.
  assert (C : 0 <= changeTime b (level s) (at_ms s) <= at_ms s).
  { unfold changeTime. destruct (Bool.eqb _ _); lia. }
  rewrite (elapsed_in_order _ _ C) by lia.
  unfold changeTime in *. unfold HIGH, LOW, DEBOUNCE_MS in *.
  destruct (level s), (lastReading b), (stableState b); cbn [Bool.eqb] in *;
    match goal with
    | |- context [35 <? ?d] => destruct (Z.ltb_spec 35 d)
    end; cbn [andb];
    (split; [|split; [lia|settle]]);
    destruct P as [(P1 & P2)|[(P1 & P2 & P3)|P]]; try discriminate; use_facts;
    first [ solve [right; right; lia]
          | solve [left; settle]
          | solve [right; left; settle] ].
Qed.

Lemma presses_after_cons t b s tr :
  presses_after t b (s :: tr) <->
  (fst (poll b s) = true -> t < at_ms s) /\ presses_after t (snd (poll b s)) tr.
Proof.
  unfold presses_after. cbn [poll_all].
  destruct (poll b s) as [ev b1]. cbn [fst snd].
  destruct (poll_all b1 tr) as [evs b2]. cbn [fst combine].
  split.
  - intros H. inversion H; subst. now split.
  - intros (H1 & H2). now constructor.
Qed.

Lemma since_press_trace t1 tr :
  forall b T,
    t1 <= T -> 0 <= lastChangeMs b <= T -> in_order T tr ->
    since_press t1 b T -> presses_after (t1 + 70) b tr.
Proof.
  induction tr as [|s tr IH]; intros b T Ht Hc Ho P.
  - constructor.
  - destruct Ho as (Hs & Ho).
    destruct (since_press_step t1 b T s Ht Hc Hs P) as (P' & C' & E).
    apply presses_after_cons. split; [exact E|].
    apply (IH _ (at_ms s)); try assumption. lia.
Qed.

(** X9. Presses of a button are more than 70 ms apart: after a reported
    press, every later press is reported at a time more than twice the
    debounce window later (the release must first be held for more than
    35 ms, then the new press).  For samples taken at non-decreasing times
    before the millisecond counter wraps. *)
Theorem presses_are_spaced (b : Button) (s1 : Sample) (tr : list Sample) :
  0 <= lastChangeMs b <= at_ms s1 -> at_ms s1 < ULONG_MOD ->
  in_order (at_ms s1) tr ->
  fst (poll b s1) = true ->
  presses_after (at_ms s1 + 70) (snd (poll b s1)) tr.
Proof.
  intros Hc Hs Ho E.
  apply (since_press_trace (at_ms s1) tr _ (at_ms s1)); try assumption; try lia.
  - unfold poll. rewrite checkPress_lastChangeMs. unfold changeTime.
    destruct (Bool.eqb _ _); lia.
  - left. unfold poll in *.
    rewrite checkPress_event in E.
    rewrite checkPress_stableState, checkPress_lastReading.
    apply andb_true_iff in E as (E1 & E3). apply andb_true_iff in E1 as (E1 & E2).
    rewrite E1. unfold LOW, HIGH in *.
    destruct (level s1); [discriminate|]. split; [reflexivity | discriminate].
Qed.

Lemma presses_are_spaced_witness :
  let b := mkButton BTN_NIGHT HIGH LOW 0 in
  let s1 := mkSample LOW 100 in
  let tr := [mkSample HIGH 110; mkSample HIGH 150; mkSample LOW 160;
             mkSample LOW 200] in
  (0 <= lastChangeMs b <= at_ms s1 /\ at_ms s1 < ULONG_MOD
   /\ in_order (at_ms s1) tr /\ fst (poll b s1) = true)
  /\ fst (poll_all (snd (poll b s1)) tr) = [false; false; false; true]
  /\ presses_after 170 (snd (poll b s1)) tr.
Proof.
  cbv zeta. split; [|split].
  - cbn. unfold ULONG_MOD. repeat split; lia.
  - reflexivity.
  - apply (presses_are_spaced (mkButton BTN_NIGHT HIGH LOW 0) (mkSample LOW 100)).
    + cbn. lia.
    + cbn. unfold ULONG_MOD. lia.
    + cbn. unfold ULONG_MOD. repeat split; lia.
    + reflexivity.
Defined.

(** ** The two timed tasks of the loop *)

Lemma loop_split inp st : loop inp st = timedTasks inp (beforeReport inp st).
Proof. unfold loop, timedTasks, beforeReport. cbv zeta. reflexivity. Qed.

Lemma execLine_lastReadSend st : lastReadSend (execLine st) = lastReadSend st.
Proof. unfold execLine. destruct st; cbn. cases; reflexivity. Qed.

Lemma readCmd_lastReadSend rx :
  forall st, lastReadSend (readCmd rx st) = lastReadSend st.
Proof.
  induction rx as [|c rx IH]; intros st; cbn; [reflexivity|].
  rewrite IH. unfold readChar. case_if; [apply execLine_lastReadSend|].
  destruct st; cbn. cases; reflexivity.
Qed.

Lemma handleButtons_lastReadSend inp st :
  lastReadSend (handleButtons inp st) = lastReadSend st.
Proof.
  unfold handleButtons, nightBlock, editBlock, normalBlock, pressNight,
    editMinus, editPlus, pressMode, pressTog.
  destruct st; cbn. case_polls; case_enums; case_polls; reflexivity.
Qed.

Lemma signals_settings_timers w c base w' c' ms ms' st :
  let s := buzzerPassive w' c' ms' (ledAlarmUpdate w c base ms st) in
  intervalMs s = intervalMs st /\ lastReadSend s = lastReadSend st
  /\ lastReadMain s = lastReadMain st.
Proof.
  cbv zeta. unfold buzzerPassive, ledAlarmUpdate. destruct st; cbn.
  destruct c, w, c', w'; cbn; cases; repeat split.
Qed.

Lemma beforeReport_timers inp st :
  intervalMs (beforeReport inp st) = intervalMs (readCmd (rx inp) st)
  /\ lastReadSend (beforeReport inp st) = lastReadSend st
  /\ lastReadMain (beforeReport inp st) = lastReadMain st.
Proof.
  unfold beforeReport.
  set (st2 := handleButtons (buttons inp) (readCmd (rx inp) st)).
  match goal with
  | |- context [buzzerPassive ?w' ?c' ?ms' (ledAlarmUpdate ?w ?c ?b ?ms st2)] =>
      destruct (signals_settings_timers w c b w' c' ms ms' st2) as (-> & -> & ->)
  end.
  subst st2.
  now rewrite handleButtons_intervalMs, handleButtons_lastReadSend,
    handleButtons_lastReadMain, readCmd_lastReadSend, readCmd_lastReadMain.
Qed.

Lemma senseTask_lastReadSend inp st :
  lastReadSend (senseTask inp st) = lastReadSend st.
Proof.
  unfold senseTask.
  assert (D : forall ms s, lastReadSend (drawOLED ms s) = lastReadSend s).
  { intros. unfold drawOLED. destruct s; cbn. cases; reflexivity. }
  assert (U : forall s, lastReadSend (updateLogic s) = lastReadSend s).
  { intros. unfold updateLogic. destruct s; cbn. cases; reflexivity. }
  now rewrite D, U.
Qed.

Lemma loop_lastReadSend inp st :
  lastReadSend (loop inp st) =
  if reportDue inp st then msSendStamp inp else lastReadSend st.
Proof.
  destruct (beforeReport_timers inp st) as (_ & E & _). rewrite <- E.
  unfold reportDue. cbv zeta. rewrite loop_split. unfold timedTasks.
  set (s := beforeReport inp st). clearbody s.
  repeat case_if; rewrite ?senseTask_lastReadSend; reflexivity.
Qed.

Lemma loop_lastReadMain inp st :
  lastReadMain (loop inp st) =
  if senseDue inp st then msMainStamp inp else lastReadMain st.
Proof. apply (loop_clock inp st). Qed.

Lemma timed_bounds T inp T' :
  timed T inp T' ->
  0 <= T /\ T <= msSendCheck inp /\ msSendCheck inp <= msSendStamp inp
  /\ msSendStamp inp <= msMainCheck inp /\ msMainCheck inp <= msMainStamp inp
  /\ msMainStamp inp <= T' /\ T' < ULONG_MOD.
Proof. unfold timed. lia. Qed.

Lemma endTime_ge T inps : chained T inps -> T <= endTime T inps.
Proof.
  revert T. induction inps as [|i inps IH]; intros T H; cbn; [lia|].
  destruct H as (H1 & H2). apply timed_bounds in H1. specialize (IH _ H2). lia.
Qed.

Lemma sense_rate inps :
  forall T st,
    chained T inps -> 0 <= lastReadMain st <= T ->
    250 * Z.of_nat (senseCount inps st) <= endTime T inps - lastReadMain st.
Proof.
  induction inps as [|i inps IH]; intros T st H L; cbn [senseCount endTime].
  - cbn. lia.
  - destruct H as (H1 & H2). pose proof (endTime_ge _ _ H2) as G.
    apply timed_bounds in H1.
    specialize (IH (msDraw i) (loop i st) H2).
    rewrite loop_lastReadMain in IH. unfold senseDue in *.
    destruct (Z.leb_spec 250 (elapsed (lastReadMain st) (msMainCheck i))) as [D|D].
    + rewrite elapsed_real in D by lia.
      rewrite Nat2Z.inj_add. change (Z.of_nat 1) with 1. lia.
    + rewrite Nat2Z.inj_add. change (Z.of_nat 0) with 0. lia.
Qed.

Lemma report_rate inps :
  forall T st,
    chained T inps -> interval_ok st -> 0 <= lastReadSend st <= T ->
    1000 * Z.of_nat (reportCount inps st) <= endTime T inps - lastReadSend st.
Proof.
  induction inps as [|i inps IH]; intros T st H K L; cbn [reportCount endTime].
  - cbn. lia.
  - destruct H as (H1 & H2). pose proof (endTime_ge _ _ H2) as G.
    apply timed_bounds in H1.
    assert (K1 : interval_ok (readCmd (rx i) st)) by now apply readCmd_interval.
    assert (K' : interval_ok (loop i st)).
    { unfold interval_ok. now rewrite loop_intervalMs. }
    specialize (IH (msDraw i) (loop i st) H2 K').
    rewrite loop_lastReadSend in IH. unfold reportDue in *. cbv zeta in *.
    destruct (beforeReport_timers i st) as (E1 & E2 & _).
    rewrite E1, E2 in *.
    destruct (Z.leb_spec (intervalMs (readCmd (rx i) st))
                (elapsed (lastReadSend st) (msSendCheck i))) as [D|D].
    + rewrite elapsed_real in D by lia.
      assert (1000 <= intervalMs (readCmd (rx i) st)).
      { unfold interval_ok in K1. cbn in K1. lia. }
      rewrite Nat2Z.inj_add. change (Z.of_nat 1) with 1. lia.
    + rewrite Nat2Z.inj_add. change (Z.of_nat 0) with 0. lia.
Qed.

(** X10. The timed tasks never run too often.  Along a run whose clock
    readings are taken in call order before the counter wraps, the 250 ms
    task runs at most once per 250 ms and a report is sent at most once per
    1000 ms (the shortest selectable interval), counted from the last time
    each of them ran. *)
Theorem timed_tasks_rate (T : Z) (inps : list LoopInputs) (st : State) :
  chained T inps -> interval_ok st ->
  0 <= lastReadMain st <= T -> 0 <= lastReadSend st <= T ->
  250 * Z.of_nat (senseCount inps st) <= endTime T inps - lastReadMain st
  /\ 1000 * Z.of_nat (reportCount inps st) <= endTime T inps - lastReadSend st.
Proof.
  intros H K L1 L2. split; [now apply sense_rate | now apply report_rate].
Qed.

Lemma timed_tasks_rate_witness :
  let idle := mkSample HIGH 300 in
  let inp := mkLoopInputs [] (mkButtonInputs idle idle idle 300 300 300)
               300 300 300 300 300 300 0 20 50 (mkDateTime 12 0 0) 300 in
  (chained 0 [inp] /\ interval_ok boot
   /\ 0 <= lastReadMain boot <= 0 /\ 0 <= lastReadSend boot <= 0)
  /\ 250 * Z.of_nat (senseCount [inp] boot) <= endTime 0 [inp] - lastReadMain boot
  /\ 1000 * Z.of_nat (reportCount [inp] boot) <= endTime 0 [inp] - lastReadSend boot.
Proof.
  cbv zeta.
  assert (H : chained 0
                [mkLoopInputs [] (mkButtonInputs (mkSample HIGH 300) (mkSample HIGH 300)
                                    (mkSample HIGH 300) 300 300 300)
                   300 300 300 300 300 300 0 20 50 (mkDateTime 12 0 0) 300]).
  { cbn. unfold timed, ULONG_MOD. cbn. repeat split; lia. }
  assert (K : interval_ok boot) by (unfold interval_ok; cbn; tauto).
  split.
  - split; [exact H|]. split; [exact K|]. cbn. lia.
  - apply (timed_tasks_rate 0 _ boot H K); cbn; lia.
Defined.

(** ** What the status line reports *)

Lemma execLine_flags st : flags (execLine st) = flags st.
Proof. unfold execLine, flags. destruct st; cbn. cases; reflexivity. Qed.

Lemma readCmd_flags rx : forall st, flags (readCmd rx st) = flags st.
Proof.
  induction rx as [|c rx IH]; intros st; cbn; [reflexivity|].
  rewrite IH. unfold readChar. case_if; [apply execLine_flags|].
  unfold flags. destruct st; cbn. cases; reflexivity.
Qed.

Lemma handleButtons_flags inp st : flags (handleButtons inp st) = flags st.
Proof.
  unfold handleButtons, nightBlock, editBlock, normalBlock, pressNight,
    editMinus, editPlus, pressMode, pressTog, flags.
  destruct st; cbn. case_polls; case_enums; case_polls; reflexivity.
Qed.

Lemma signals_flags w c base w' c' ms ms' st :
  flags (buzzerPassive w' c' ms' (ledAlarmUpdate w c base ms st)) = flags st.
Proof.
  unfold buzzerPassive, ledAlarmUpdate, flags. destruct st; cbn.
  destruct c, w, c', w'; cbn; cases; reflexivity.
Qed.

Lemma drawOLED_flags ms st : flags (drawOLED ms st) = flags st.
Proof. unfold drawOLED, flags. destruct st; cbn. cases; reflexivity. Qed.

Lemma updateLogic_coherent st : coherent (updateLogic st).
Proof. unfold updateLogic, coherent. destruct st; cbn. cases; split; reflexivity. Qed.

Lemma coherent_flags st st' : flags st' = flags st -> coherent st -> coherent st'.
Proof.
  unfold flags, coherent. intros H. injection H as -> -> -> -> ->. tauto.
Qed.

Lemma beforeReport_flags inp st : flags (beforeReport inp st) = flags st.
Proof.
  unfold beforeReport.
  now rewrite signals_flags, handleButtons_flags, readCmd_flags.
Qed.

Lemma senseTask_coherent inp st : coherent (senseTask inp st).
Proof.
  unfold senseTask. eapply coherent_flags; [apply drawOLED_flags|].
  apply updateLogic_coherent.
Qed.

Lemma loop_coherent inp st : coherent st -> coherent (loop inp st).
Proof.
  intros H.
  rewrite loop_split. unfold timedTasks.
  assert (B : coherent (beforeReport inp st))
    by (eapply coherent_flags; [apply beforeReport_flags | exact H]).
  set (s := beforeReport inp st) in *. clearbody s.
  repeat case_if; try apply senseTask_coherent; assumption.
Qed.

Lemma run_coherent inps : forall st, coherent st -> coherent (run inps st).
Proof.
  induction inps as [|i inps IH]; intros st H; cbn; [assumption|].
  now apply IH, loop_coherent.
Qed.

Lemma beforeReport_outputs inp st :
  pinLED (beforeReport inp st) =
    pinLED (ledAlarmUpdate (warningState st) (criticalState st) (baseLedOn st)
              (msLed inp) st)
  /\ buzzTone (beforeReport inp st) =
    buzzTone (buzzerPassive (warningState st) (criticalState st) (msBuzz inp) st).
Proof.
  unfold beforeReport.
  set (st2 := handleButtons (buttons inp) (readCmd (rx inp) st)).
  assert (S2 : signalling st2 = signalling st).
  { subst st2. rewrite handleButtons_signalling. apply readCmd_frame. }
  clearbody st2. revert S2.
  unfold signalling, ledAlarmUpdate, buzzerPassive.
  destruct st, st2; cbn. intros H. inversion H. subst.
  cases; split; congruence.
Qed.

(** X11. The two flags of the status line cover the outputs.  [updateLogic]
    sets [ledState] to base output or warning or critical and [buzzState] to
    warning or critical, and computing it again changes nothing; the relation
    holds along every run from power-up.  At the point of a pass where the
    report is sent, a lit LED is always reported as led=1 and a sounding
    buzzer as buzz=1; led=0 means LED off and buzzer silent. *)
Theorem status_flags_cover_the_outputs :
  (forall st, coherent (updateLogic st))
  /\ (forall st, updateLogic (updateLogic st) = updateLogic st)
  /\ (forall inps, coherent (run inps boot))
  /\ (forall inp st,
         coherent st ->
         let s := beforeReport inp st in
         (pinLED s = HIGH -> ledState s = true)
         /\ (buzzTone s <> None -> buzzState s = true)
         /\ (ledState s = false -> pinLED s = LOW /\ buzzTone s = None)).
Proof.
  repeat match goal with |- _ /\ _ => split end.
  - exact updateLogic_coherent.
  - intros st. unfold updateLogic.
    destruct st; cbn -[Qltb isEvening Z.ltb].
    match goal with m : Mode |- _ => destruct m end; reflexivity.
  - intros inps. apply run_coherent. unfold coherent. now cbn.
  - intros inp st (C1 & C2) s. subst s.
    pose proof (beforeReport_flags inp st) as F. unfold flags in F.
    injection F as -> -> _ _ _.
    destruct (beforeReport_outputs inp st) as (-> & ->).
    pose proof (ledAlarmUpdate_spec (warningState st) (criticalState st)
                  (baseLedOn st) (msLed inp) st) as L.
    pose proof (buzzerPassive_spec (warningState st) (criticalState st)
                  (msBuzz inp) st) as B.
    cbv zeta in L, B. rewrite C1, C2. unfold alarmLevel, HIGH, LOW in *.
    destruct (criticalState st), (warningState st);
      rewrite ?orb_true_r, ?orb_false_r; cbv iota in L, B;
      repeat split; intros; try reflexivity; try discriminate;
      try (destruct L as (L & _); congruence);
      try (destruct B as (B & _); congruence).
Qed.

(** ** The blinking hour *)

Ltac leb_facts :=
  repeat match goal with
         | H : (_ <=? _) = true |- _ => apply Z.leb_le in H
         | H : (_ <=? _) = false |- _ => apply Z.leb_gt in H
         end.

Lemma execLine_blink st :
  editBlinkOn (execLine st) = editBlinkOn st /\ nightEdit (execLine st) = nightEdit st.
Proof. unfold execLine. destruct st; cbn. cases; split; reflexivity. Qed.

Lemma readCmd_steady rx : forall st, steady st -> steady (readCmd rx st).
Proof.
  induction rx as [|c rx IH]; intros st H; cbn; [assumption|].
  apply IH. unfold steady in *. unfold readChar. case_if.
  - destruct (execLine_blink st) as (-> & ->). exact H.
  - destruct st; cbn in *. cases; assumption.
Qed.

Lemma handleButtons_steady inp st : steady st -> steady (handleButtons inp st).
Proof.
  unfold steady, handleButtons, nightBlock, editBlock, normalBlock, pressNight,
    editMinus, editPlus, pressMode, pressTog.
  destruct st; cbn. intros H.
  case_polls; case_enums; case_polls; intros; try reflexivity; try discriminate; auto.
Qed.

Lemma signals_steady w c base w' c' ms ms' st :
  steady st -> steady (buzzerPassive w' c' ms' (ledAlarmUpdate w c base ms st)).
Proof.
  unfold steady, buzzerPassive, ledAlarmUpdate. destruct st; cbn.
  destruct c, w, c', w'; cbn; cases; auto.
Qed.

Lemma drawOLED_steady ms st : steady (drawOLED ms st).
Proof.
  unfold steady, drawOLED. destruct st; cbn.
  case_enums; cases; intros; try reflexivity; discriminate.
Qed.

Lemma loop_steady inp st : steady st -> steady (loop inp st).
Proof.
  intros H. rewrite loop_split. unfold timedTasks.
  assert (B : steady (beforeReport inp st)).
  { unfold beforeReport. now apply signals_steady, handleButtons_steady, readCmd_steady. }
  set (s := beforeReport inp st) in *. clearbody s.
  repeat case_if; try (unfold senseTask; apply drawOLED_steady); assumption.
Qed.

Lemma handleButtons_edit_shown inp st :
  nightPressed inp st = true
  \/ (nightEdit (nightBlock inp st) <> NIGHT_EDIT_OFF
      /\ modePressed inp st || togPressed inp st = true) ->
  editBlinkOn (handleButtons inp st) = true.
Proof.
  unfold handleButtons, nightBlock, editBlock, normalBlock, pressNight,
    editMinus, editPlus, pressMode, pressTog, nightPressed, modePressed, togPressed.
  destruct st; cbn.
  case_polls; case_enums; case_polls; cbn;
    intros [H|(H1 & H2)]; try reflexivity; try discriminate; try congruence.
Qed.

Lemma handleButtons_edit_stamp inp st :
  nightEdit (nightBlock inp st) <> NIGHT_EDIT_OFF ->
  modePressed inp st || togPressed inp st = true ->
  lastEditBlink (handleButtons inp st) =
  if togPressed inp st then msTogBlink inp else msModeBlink inp.
Proof.
  unfold handleButtons, nightBlock, editBlock, normalBlock, pressNight,
    editMinus, editPlus, pressMode, pressTog, nightPressed, modePressed, togPressed.
  destruct st; cbn.
  case_polls; case_enums; case_polls; cbn;
    intros H1 H2; try reflexivity; try discriminate; try congruence.
Qed.

Lemma drawOLED_keeps_shown ms st :
  editBlinkOn st = true -> elapsed (lastEditBlink st) ms < EDIT_BLINK_MS ->
  editBlinkOn (drawOLED ms st) = true.
Proof.
  unfold drawOLED, EDIT_BLINK_MS. destruct st; cbn. intros -> H.
  cases; try reflexivity; leb_facts; lia.
Qed.

(** X12. Visibility of the hours on the display.  From power-up, outside
    the editor the blink flag is always on, and [drawOLED] sets it so.  Any
    registered night press, and any registered -/+ press while editing, turns
    the flag on, the -/+ press restarting the blink timer; [drawOLED] then
    leaves the flag on until 400 ms have passed on that timer, and flips it,
    restarting the timer, once they have. *)
Theorem edited_hour_is_shown :
  (forall inps, steady (run inps boot))
  /\ (forall ms st, nightEdit st = NIGHT_EDIT_OFF -> editBlinkOn (drawOLED ms st) = true)
  /\ (forall inp st,
         nightPressed inp st = true
         \/ (nightEdit (nightBlock inp st) <> NIGHT_EDIT_OFF
             /\ modePressed inp st || togPressed inp st = true) ->
         editBlinkOn (handleButtons inp st) = true)
  /\ (forall inp st,
         nightEdit (nightBlock inp st) <> NIGHT_EDIT_OFF ->
         modePressed inp st || togPressed inp st = true ->
         lastEditBlink (handleButtons inp st) =
         if togPressed inp st then msTogBlink inp else msModeBlink inp)
  /\ (forall ms st,
         editBlinkOn st = true ->
         elapsed (lastEditBlink st) ms < EDIT_BLINK_MS ->
         editBlinkOn (drawOLED ms st) = true)
  /\ (forall ms st,
         nightEdit st <> NIGHT_EDIT_OFF ->
         EDIT_BLINK_MS <= elapsed (lastEditBlink st) ms ->
         editBlinkOn (drawOLED ms st) = negb (editBlinkOn st)
         /\ lastEditBlink (drawOLED ms st) = ms).
Proof.
  repeat match goal with |- _ /\ _ => split end.
  - intros inps.
    assert (G : forall st, steady st -> steady (run inps st)).
    { induction inps as [|i inps IH]; intros st H; cbn; [assumption|].
      now apply IH, loop_steady. }
    apply G. unfold steady. reflexivity.
  - intros ms st H. apply drawOLED_steady.
    destruct (drawOLED_frame ms st) as (-> & _). exact H.
  - exact handleButtons_edit_shown.
  - exact handleButtons_edit_stamp.
  - exact drawOLED_keeps_shown.
  - intros ms st N H. unfold drawOLED, EDIT_BLINK_MS in *. destruct st; cbn in *.
    case_enums; cases; try (split; reflexivity); leb_facts; lia.
Qed.

(** ** Text produced for the display and the status line *)

Lemma pad2_two n :
  0 <= n < 100 ->
  pad2 n = String (digit (n / 10)) (String (digit (n mod 10)) "").
Proof.
  intros H. unfold pad2, dec.
  destruct (Z.ltb_spec n 10).
  - rewrite Z.div_small, Z.mod_small by lia. reflexivity.
  - destruct (Z.ltb_spec n 100); [reflexivity | lia].
Qed.

Lemma digit_inj a b : 0 <= a <= 9 -> 0 <= b <= 9 -> digit a = digit b -> a = b.
Proof.
  intros Ha Hb H. unfold digit in H.
  apply (f_equal nat_of_ascii) in H.
  rewrite !nat_ascii_embedding in H by lia. lia.
Qed.

Lemma pad2_inj a b : 0 <= a < 100 -> 0 <= b < 100 -> pad2 a = pad2 b -> a = b.
Proof.
  intros Ha Hb H. rewrite !pad2_two in H by assumption.
  injection H as H1 H2.
  apply digit_inj in H1;
    [| pose proof (Z.div_pos a 10); pose proof (Z.div_lt_upper_bound a 10 10); lia
     | pose proof (Z.div_pos b 10); pose proof (Z.div_lt_upper_bound b 10 10); lia].
  apply digit_inj in H2;
    [| pose proof (Z.mod_pos_bound a 10); lia | pose proof (Z.mod_pos_bound b 10); lia].
  rewrite (Z.div_mod a 10), (Z.div_mod b 10) by lia. congruence.
Qed.

Lemma pad2_length n :
  0 <= n ->
  String.length (pad2 n) = if n <? 100 then 2%nat else 3%nat.
Proof.
  intros H. unfold pad2, dec.
  destruct (Z.ltb_spec n 10); [destruct (Z.ltb_spec n 100); [reflexivity|lia]|].
  destruct (Z.ltb_spec n 100); reflexivity.
Qed.

Lemma substring_length_le n s : (String.length (substring 0 n s) <= n)%nat.
Proof.
  revert s. induction n as [|n IH]; intros s.
  - destruct s; cbn; lia.
  - destruct s; cbn; [lia|]. specialize (IH s). lia.
Qed.

(** X13. The time text of the display and of the status line.  Whatever the
    clock returns, the text fits the 9-byte buffer.  For a time of day it is
    exactly HH:MM:SS, two decimal digits per field, and different times give
    different texts. *)
Theorem time_text_is_well_formed :
  (forall t, (String.length (timeBuf t) <= 8)%nat)
  /\ (forall t, clock_ok t ->
                timeBuf t =
                String (digit (hour t / 10)) (String (digit (hour t mod 10))
                (String ":"
                (String (digit (minute t / 10)) (String (digit (minute t mod 10))
                (String ":"
                (String (digit (second t / 10)) (String (digit (second t mod 10))
                ""))))))))
  /\ (forall t1 t2, clock_ok t1 -> clock_ok t2 ->
                    timeBuf t1 = timeBuf t2 ->
                    hour t1 = hour t2 /\ minute t1 = minute t2
                    /\ second t1 = second t2).
Proof.
  assert (F : forall t, clock_ok t ->
              timeBuf t = (pad2 (hour t) ++ ":" ++ pad2 (minute t) ++ ":" ++ pad2 (second t))%string).
  { intros t (H1 & H2 & H3). unfold timeBuf.
    rewrite !pad2_two by lia. reflexivity. }
  repeat match goal with |- _ /\ _ => split end.
  - intros t. apply substring_length_le.
  - intros t H. rewrite (F t H). destruct H as (H1 & H2 & H3).
    rewrite !pad2_two by lia. reflexivity.
  - intros t1 t2 C1 C2 H. rewrite (F t1 C1), (F t2 C2) in H.
    destruct C1 as (A1 & A2 & A3), C2 as (B1 & B2 & B3).
    assert (P : forall n, 0 <= n < 100 ->
                exists x y, pad2 n = String x (String y "")).
    { intros n Hn. rewrite pad2_two by assumption. eauto. }
    destruct (P (hour t1)) as (x1 & y1 & E1); [lia|].
    destruct (P (minute t1)) as (x2 & y2 & E2); [lia|].
    destruct (P (second t1)) as (x3 & y3 & E3); [lia|].
    destruct (P (hour t2)) as (u1 & v1 & G1); [lia|].
    destruct (P (minute t2)) as (u2 & v2 & G2); [lia|].
    destruct (P (second t2)) as (u3 & v3 & G3); [lia|].
    rewrite E1, E2, E3, G1, G2, G3 in H. cbn in H.
    injection H as -> -> -> -> -> ->.
    rewrite <- G1 in E1. rewrite <- G2 in E2. rewrite <- G3 in E3.
    repeat split; apply pad2_inj; try assumption; lia.
Qed.

Lemma nightLine_length st :
  hours_ok st -> String.length (nightLine st) = 14%nat.
Proof.
  intros (H1 & H2 & H3 & H4). unfold nightLine. cbv zeta.
  assert (L : forall n, 0 <= n <= 23 -> String.length (pad2 n) = 2%nat).
  { intros n Hn. rewrite pad2_length by lia.
    destruct (Z.ltb_spec n 100); [reflexivity | lia]. }
  cbn [append]. cbn [String.length].
  rewrite !String_length_append. cbn [String.length].
  repeat case_if; rewrite ?L by assumption; reflexivity.
Qed.

(** X14. The night line of the display.  Along every run from power-up it
    is 14 characters long, so blinking never shifts the layout.  Outside the
    editor it shows the committed hours; in the editor it shows the draft
    hours, with two blanks in place of the hour being edited while the blink
    flag is off. *)
Theorem night_line_layout :
  (forall inps, String.length (nightLine (run inps boot)) = 14%nat)
  /\ (forall st,
         nightEdit st = NIGHT_EDIT_OFF ->
         nightLine st
         = ("Night: " ++ pad2 (eveningStart st) ++ " - " ++ pad2 (nightEnd st))%string)
  /\ (forall st,
         nightEdit st <> NIGHT_EDIT_OFF -> editBlinkOn st = true ->
         nightLine st
         = ("Night: " ++ pad2 (editStartH st) ++ " - " ++ pad2 (editEndH st))%string)
  /\ (forall st,
         nightEdit st = NIGHT_EDIT_START -> editBlinkOn st = false ->
         nightLine st = ("Night: " ++ "  " ++ " - " ++ pad2 (editEndH st))%string)
  /\ (forall st,
         nightEdit st = NIGHT_EDIT_END -> editBlinkOn st = false ->
         nightLine st = ("Night: " ++ pad2 (editStartH st) ++ " - " ++ "  ")%string).
Proof.
  repeat match goal with |- _ /\ _ => split end.
  - intros inps. apply nightLine_length, run_hours, boot_hours.
  - intros st H. unfold nightLine. rewrite H. reflexivity.
  - intros st H B. unfold nightLine. rewrite B.
    destruct (nightEdit st); try contradiction; reflexivity.
  - intros st H B. unfold nightLine. rewrite H, B. reflexivity.
  - intros st H B. unfold nightLine. rewrite H, B. reflexivity.
Qed.

(** ** An edit session without changes *)

Lemma handleButtons_draft inp st :
  modePressed inp st = false -> togPressed inp st = false ->
  (editStartH (handleButtons inp st), editEndH (handleButtons inp st)) =
  if nightPressed inp st && NightEditState_eqb (nightEdit st) NIGHT_EDIT_OFF
  then window st else (editStartH st, editEndH st).
Proof.
  unfold handleButtons, nightBlock, editBlock, normalBlock, pressNight,
    editMinus, editPlus, pressMode, pressTog, window,
    nightPressed, modePressed, togPressed.
  destruct st; cbn.
  case_polls; case_enums; case_polls; cbn; intros; try reflexivity; discriminate.
Qed.

Lemma loop_editor inp st :
  editor (loop inp st) = editor (handleButtons (buttons inp) (readCmd (rx inp) st)).
Proof.
  rewrite loop_split. unfold timedTasks, beforeReport.
  set (st2 := handleButtons (buttons inp) (readCmd (rx inp) st)).
  set (st3 := ledAlarmUpdate _ _ _ _ st2).
  set (st4 := buzzerPassive _ _ _ st3).
  assert (E : editor st4 = editor st2).
  { subst st4 st3.
    repeat match goal with
           | |- context [editor (buzzerPassive ?w ?c ?ms ?s)] =>
               let H := fresh in
               destruct (buzzerPassive_frame w c ms s) as (H & _); rewrite H; clear H
           | |- context [editor (ledAlarmUpdate ?w ?c ?b ?ms ?s)] =>
               let H := fresh in
               destruct (ledAlarmUpdate_frame w c b ms s) as (H & _); rewrite H; clear H
           end.
    reflexivity. }
  rewrite <- E. clearbody st4. clear.
  assert (S : forall s, editor (senseTask inp s) = editor s).
  { intros s. unfold editor.
    destruct (senseTask_frame inp s) as (-> & -> & -> & _). reflexivity. }
  repeat case_if; rewrite ?S; reflexivity.
Qed.

Lemma loop_in_session w inp st :
  rx inp = [] -> modePressed (buttons inp) st = false ->
  togPressed (buttons inp) st = false ->
  in_session w st -> in_session w (loop inp st).
Proof.
  intros R M T (W & B). unfold in_session.
  pose proof (loop_editor inp st) as E. pose proof (loop_window inp st) as V.
  rewrite R in E, V. cbn [readCmd] in E, V.
  rewrite handleButtons_window in V.
  pose proof (handleButtons_draft (buttons inp) st M T) as D.
  pose proof (handleButtons_nightEdit (buttons inp) st) as N.
  unfold editor in E. injection E as E1 E2 E3.
  rewrite V, E1, E2, E3, N. clear V E1 E2 E3 N.
  rewrite D. clear D.
  destruct (nightPressed (buttons inp) st), (nightEdit st);
    cbn in *; split; intros; try tauto; try congruence;
    try (apply B; discriminate).
Qed.

(** X15. Over any run of passes that starts with the editor off, receives
    no serial byte and registers no press of the mode or toggle button, the
    night window stays what it was, however often the night button opens,
    advances and closes the editor; while the editor is open its draft
    equals that window. *)
Theorem unchanged_session_keeps_window (inps : list LoopInputs) (st : State) :
  nightEdit st = NIGHT_EDIT_OFF -> hands_off inps st ->
  window (run inps st) = window st
  /\ (nightEdit (run inps st) <> NIGHT_EDIT_OFF ->
      (editStartH (run inps st), editEndH (run inps st)) = window st).
Proof.
  intros O H.
  assert (G : forall w inps st, hands_off inps st -> in_session w st ->
                                in_session w (run inps st)).
  { clear. intros w inps. induction inps as [|i inps IH]; intros st H S; [exact S|].
    destruct H as (R & M & T & H). cbn [run]. apply IH; [exact H|].
    now apply loop_in_session. }
  apply (G (window st) inps st H). split; [reflexivity|].
  intros N. contradiction.
Qed.

Lemma unchanged_session_keeps_window_witness :
  let idle := mkSample HIGH 1000 in
  let down := mkSample LOW 1000 in
  let pass n :=
    mkLoopInputs [] (mkButtonInputs n idle idle 1000 1000 1000)
      1000 1000 1000 1000 1000 1000 0 20 50 (mkDateTime 12 0 0) 1000 in
  let st := boot |> set_bNight (mkButton BTN_NIGHT HIGH LOW 0)
                 |> set_eveningStart 21 in
  (nightEdit st = NIGHT_EDIT_OFF /\ hands_off [pass down] st)
  /\ nightEdit (run [pass down] st) = NIGHT_EDIT_START
  /\ window (run [pass down] st) = window st.
Proof.
  cbv zeta.
  split; [split; [reflexivity | cbn; repeat split; reflexivity]|].
  split; [reflexivity|].
  refine (proj1 (unchanged_session_keeps_window _ _ _ _)).
  - reflexivity.
  - cbn. repeat split; reflexivity.
Defined.
